(** * obpcreator: the OBF build processor and the BOSS-to-OBF converter

    This development embeds two pieces of [src/obpcreator/obf/cli.py]:

    - the Lua build processor held in [LUA_SCRIPT] (the program that the
      machine runtime executes layer by layer), in [Module Controller];
    - the layer-construction loop of the Python function [convert], in
      [Module Converter].

    The Lua script talks to the host through the api objects [machine],
    [mqtt], [system] and [os].  Every host function is a field of the record
    [Machine]: a function on an arbitrary world type [W].  The script itself
    is written in an error monad that threads the world and the one global
    variable of the script, and that collects the host calls it makes, with
    their arguments and answers, in chronological order.

    Conventions.  Counters, indices, repetitions and the answer of
    [machine.start_process_step_exposures] are integers ([Z]); durations,
    temperatures and currents are rationals ([Q]); [os.time] answers whole
    seconds.  The repetitions of a pattern and the values on the parameter
    topics are Lua integers, and the two sums that the script forms of them
    are Lua's [+] on integers, which wraps around at 64 bits ([lua_add]).
    [Raise msg] carries the argument given to Lua's [error].  The loops
    [while ... do] take a budget of passes ([fuel]); a run that uses it up
    ends in [Diverge], and the theorems say where a budget is enough. *)

From Stdlib Require Import ZArith QArith Qround List String Ascii Bool Lia Lqa.
From Stdlib Require Import DecimalString.
Import ListNotations.

Local Open Scope string_scope.
Local Open Scope Z_scope.

Module Controller.

(** ** Data of [buildInfo.json], as the script reads it *)

(** An entry [{ file = ..., repetitions = ... }] of a pattern group. *)
Record Pattern : Type := mkPattern {
  file : string;
  repetitions : Z
}.

(** A layer of [build_info.layers].  The script tests [jumpSafe],
    [spatterSafe] and [heatBalance] against [nil]; it iterates [melt]
    without a test. *)
Record Layer : Type := mkLayer {
  jumpSafe : option (list Pattern);
  spatterSafe : option (list Pattern);
  melt : list Pattern;
  heatBalance : option (list Pattern)
}.

Record StartHeat : Type := mkStartHeat {
  sh_file : string;
  temperatureSensor : string;
  targetTemperature : Q;
  sh_timeout : Q
}.

(** [layerDefaults.layerFeed] is handed to the recoater as it is. *)
Definition LayerFeed : Type := list (string * Q).

Record BuildInfo : Type := mkBuildInfo {
  startHeat : StartHeat;
  layerFeed : option LayerFeed;
  layers : list Layer
}.

(** The result of [mqtt.construct_topic a b c]. *)
Definition Topic : Type := (string * string * string)%type.

Definition construct_topic (a b c : string) : Topic := (a, b, c).

(** The optional third argument of [wait]: a table with an optional field
    [interval]. *)
Record Settings : Type := mkSettings {
  interval : option Q
}.

(** A value published in a telemetry field: a text or a number. *)
Inductive FieldValue : Type :=
| VText (s : string)
| VNumber (n : Z).

(** ** The host *)

(** The api objects of the script.  Each function takes the world and
    returns its answer with the world after the call. *)
Record Machine (W : Type) : Type := mkMachine {
  m_beam_is_on : W -> bool * W;
  m_restartHV : Q -> W -> bool * W;
  m_start_exposure : string -> Z -> W -> W;
  m_get_temperature : string -> W -> option Q * W;
  m_get_hv_current : W -> option Q * W;
  m_clear_exposure_queue : W -> bool * W;
  m_recoat_cycle : LayerFeed -> W -> bool * W;
  m_start_process_step_exposures :
    list Pattern -> list Pattern -> list Pattern -> list Pattern -> W -> Z * W;
  m_restart_after_arc_trip : option bool -> Q -> W -> bool * W;
  m_beam_off : W -> W;
  m_power_off : W -> W;
  m_os_time : W -> Z * W;
  m_sleep : Q -> W -> W;
  m_print : string -> W -> W;
  m_publish_field : string -> string -> string -> string -> FieldValue -> W -> W;
  m_publish_layers : Z -> Z -> W -> W;
  m_add_subscription : Topic -> W -> W;
  m_get_field : Topic -> string -> W -> Z * W
}.

Arguments m_beam_is_on {W}.
Arguments m_restartHV {W}.
Arguments m_start_exposure {W}.
Arguments m_get_temperature {W}.
Arguments m_get_hv_current {W}.
Arguments m_clear_exposure_queue {W}.
Arguments m_recoat_cycle {W}.
Arguments m_start_process_step_exposures {W}.
Arguments m_restart_after_arc_trip {W}.
Arguments m_beam_off {W}.
Arguments m_power_off {W}.
Arguments m_os_time {W}.
Arguments m_sleep {W}.
Arguments m_print {W}.
Arguments m_publish_field {W}.
Arguments m_publish_layers {W}.
Arguments m_add_subscription {W}.
Arguments m_get_field {W}.

(** The local [interval] of [wait]: 1 unless [settings] and its field
    [interval] are there. *)
Definition wait_interval (settings : option Settings) : Q :=
  match settings with
  | Some (mkSettings (Some i)) => i
  | _ => 1%Q
  end.

(** One host call, with its arguments and its answer. *)
Inductive Event : Type :=
| EvBeamIsOn (answer : bool)
| EvRestartHV (timeout : Q) (answer : bool)
| EvStartExposure (f : string) (reps : Z)
| EvGetTemperature (sensor : string) (answer : option Q)
| EvGetHvCurrent (answer : option Q)
| EvClearExposureQueue (answer : bool)
| EvRecoatCycle (feed : LayerFeed) (answer : bool)
| EvExposures (js ss ml hb : list Pattern) (err_id : Z)
| EvRestartAfterArcTrip (newPowder : option bool) (timeout : Q) (answer : bool)
| EvBeamOff
| EvPowerOff
| EvOsTime (answer : Z)
| EvSleep (seconds : Q)
| EvPrint (message : string)
| EvPublishField (a b c field : string) (value : FieldValue)
| EvPublishLayers (build_layers current_layer : Z)
| EvAddSubscription (t : Topic)
| EvGetField (t : Topic) (field : string) (answer : Z).

(** ** The monad of the script *)

(** How a piece of the script ends: with a value, with [error(msg)], or not
    within the loop budget given to the model. *)
Inductive result (A : Type) : Type :=
| Ok (a : A)
| Raise (msg : string)
| Diverge.

Arguments Ok {A}.
Arguments Raise {A}.
Arguments Diverge {A}.

(** The state of a run: the world of the host and the global variable
    [newPowderLayer] of the script ([None] while it is [nil]). *)
Record State (W : Type) : Type := mkState {
  world : W;
  newPowderLayer : option bool
}.

Arguments mkState {W}.
Arguments world {W}.
Arguments newPowderLayer {W}.

Record Run (W A : Type) : Type := mkRun {
  res : result A;
  final : State W;
  emitted : list Event
}.

Arguments mkRun {W A}.
Arguments res {W A}.
Arguments final {W A}.
Arguments emitted {W A}.

Definition M (W A : Type) : Type := State W -> Run W A.

Definition ret {W A} (a : A) : M W A :=
  fun s => mkRun (Ok a) s [].

Definition error {W A} (msg : string) : M W A :=
  fun s => mkRun (Raise msg) s [].

Definition diverge {W A} : M W A :=
  fun s => mkRun Diverge s [].

(** A run after the host calls [t]. *)
Definition after {W A} (t : list Event) (r : Run W A) : Run W A :=
  mkRun (res r) (final r) (t ++ emitted r)%list.

Definition bind {W A B} (m : M W A) (f : A -> M W B) : M W B :=
  fun s =>
    let r := m s in
    match res r with
    | Ok a => after (emitted r) (f a (final r))
    | Raise msg => mkRun (Raise msg) (final r) (emitted r)
    | Diverge => mkRun Diverge (final r) (emitted r)
    end.

Notation "x <- m ;; k" := (bind m (fun x => k))
  (at level 61, m at next level, right associativity).
Notation "m ;; k" := (bind m (fun _ => k))
  (at level 61, right associativity).

(** A host function with an answer, and one without. *)
Definition call {W A} (f : W -> A * W) (ev : A -> Event) : M W A :=
  fun s =>
    let r := f (world s) in
    mkRun (Ok (fst r)) (mkState (snd r) (newPowderLayer s)) [ev (fst r)].

Definition call_ {W} (f : W -> W) (ev : Event) : M W unit :=
  fun s => mkRun (Ok tt) (mkState (f (world s)) (newPowderLayer s)) [ev].

Definition set_newPowderLayer {W} (b : bool) : M W unit :=
  fun s => mkRun (Ok tt) (mkState (world s) (Some b)) [].

Definition get_newPowderLayer {W} : M W (option bool) :=
  fun s => mkRun (Ok (newPowderLayer s)) s [].

(** Lua's [if c then body end] around a statement. *)
Definition when {W} (c : bool) (body : M W unit) : M W unit :=
  if c then body else ret tt.

(** An integer as text, as [%d] and [..] print it. *)
Definition show (n : Z) : string := NilZero.string_of_int (Z.to_int n).

Section Script.

Context {W : Type}.
Variable mach : Machine W.

(** How [..] prints a number that need not be an integer (the target
    temperature and the start-heat timeout). *)
Variable tostring : Q -> string.

Local Abbreviation M := (M W).

(** *** The api objects *)

Definition beam_is_on : M bool := call (m_beam_is_on mach) EvBeamIsOn.
Definition restartHV (t : Q) : M bool :=
  call (m_restartHV mach t) (EvRestartHV t).
Definition start_exposure (f : string) (reps : Z) : M unit :=
  call_ (m_start_exposure mach f reps) (EvStartExposure f reps).
Definition get_temperature (sensor : string) : M (option Q) :=
  call (m_get_temperature mach sensor) (EvGetTemperature sensor).
Definition get_hv_current : M (option Q) :=
  call (m_get_hv_current mach) EvGetHvCurrent.
Definition clear_exposure_queue : M bool :=
  call (m_clear_exposure_queue mach) EvClearExposureQueue.
Definition recoat_cycle (feed : LayerFeed) : M bool :=
  call (m_recoat_cycle mach feed) (EvRecoatCycle feed).
Definition start_process_step_exposures (js ss ml hb : list Pattern) : M Z :=
  call (m_start_process_step_exposures mach js ss ml hb)
       (EvExposures js ss ml hb).
Definition restart_after_arc_trip (np : option bool) (t : Q) : M bool :=
  call (m_restart_after_arc_trip mach np t) (EvRestartAfterArcTrip np t).
Definition beam_off : M unit := call_ (m_beam_off mach) EvBeamOff.
Definition power_off : M unit := call_ (m_power_off mach) EvPowerOff.
Definition os_time : M Z := call (m_os_time mach) EvOsTime.
Definition sleep (i : Q) : M unit := call_ (m_sleep mach i) (EvSleep i).
Definition print (msg : string) : M unit :=
  call_ (m_print mach msg) (EvPrint msg).
Definition publish_field (a b c fld : string) (v : FieldValue) : M unit :=
  call_ (m_publish_field mach a b c fld v) (EvPublishField a b c fld v).
Definition publish_layers (build_layers current_layer : Z) : M unit :=
  call_ (m_publish_layers mach build_layers current_layer)
        (EvPublishLayers build_layers current_layer).
Definition add_subscription (t : Topic) : M unit :=
  call_ (m_add_subscription mach t) (EvAddSubscription t).
Definition get_field (t : Topic) (fld : string) : M Z :=
  call (m_get_field mach t fld) (EvGetField t fld).

(** *** [wait] *)

(** The loop [while not predicate() do ... end] of [wait]. *)
Fixpoint wait_loop (fuel : nat) (predicate : M bool)
    (interval' : Q) (deadline : Q) : M bool :=
  match fuel with
  | O => diverge
  | S fuel' =>
      p <- predicate ;;
      if p then ret true
      else
        sleep interval' ;;
        now <- os_time ;;
        if Qle_bool deadline (inject_Z now) then ret false
        else wait_loop fuel' predicate interval' deadline
  end.

Definition wait (fuel : nat) (predicate : M bool) (timeout : Q)
    (settings : option Settings) : M bool :=
  let interval' := wait_interval settings in
  start <- os_time ;;
  let deadline := (inject_Z start + timeout)%Q in
  wait_loop fuel predicate interval' deadline.

(** The state after the sleep and the clock reading of one round of
    [wait], and that reading. *)
Definition slept (i : Q) (s : State W) : State W :=
  mkState (snd (m_os_time mach (m_sleep mach i (world s)))) (newPowderLayer s).

Definition woke_at (i : Q) (s : State W) : Z :=
  fst (m_os_time mach (m_sleep mach i (world s))).

(** *** The helper functions of the script *)

Definition hv_is_low : M bool :=
  hv_current <- get_hv_current ;;
  ret match hv_current with
      | Some c => Qle_bool c 1
      | None => false
      end.

Definition wait_for_beam_power_low (fuel : nat) : M unit :=
  low <- wait fuel hv_is_low 30 None ;;
  when (negb low)
    (clear_exposure_queue ;;
     error "Build Aborted: BeamPowerLow condition timed out").

Definition should_do_heat_balance (heat_balance_repetitions : option Z) : bool :=
  match heat_balance_repetitions with
  | Some r => 0 <? r
  | None => false
  end.

Definition log (message : string) : M unit :=
  print message ;;
  publish_field "BuildStatus" "Trace" "Activity" "current_activity"
                (VText message).

Definition logfatal {A} (message : string) : M A :=
  let message := "Build Error: " ++ message in
  log message ;;
  clear_exposure_queue ;;
  error message.

(** The world after [log message]. *)
Definition logged (message : string) (w : W) : W :=
  m_publish_field mach "BuildStatus" "Trace" "Activity" "current_activity"
                  (VText message) (m_print mach message w).

(** *** The constants of the script *)

Definition jump_safe_input : Topic :=
  construct_topic "Parameters" "Name" "PreHeatRepetitions".
Definition heat_balance_input : Topic :=
  construct_topic "Parameters" "Name" "PostHeatRepetitions".

Definition maxRetryCount : Z := 10.

(** *** One pass of the loop [while not layerDone do ... end] *)

(** [for _, obp in ipairs(src) do table.insert(acc, f obp) end] *)
Definition insert_all (f : Pattern -> Pattern)
    (src : list Pattern) (acc : list Pattern) : list Pattern :=
  fold_left (fun t obp => (t ++ [f obp])%list) src acc.

(** The range of a Lua integer, and Lua's [a + b] on two integers, as of
    Lua 5.3: the sum in two's complement on 64 bits, which is the sum of
    the two numbers when that is in the range and wraps around otherwise. *)
Definition int64_min : Z := -9223372036854775808.
Definition int64_max : Z := 9223372036854775807.

Definition in_int64 (z : Z) : Prop := int64_min <= z <= int64_max.

Definition lua_add (a b : Z) : Z :=
  (a + b + 9223372036854775808) mod 18446744073709551616
  - 9223372036854775808.

(** The four tables built at the start of a pass, from the two values read
    from the parameter topics. *)
Definition build_jumpSafePatterns (layer : Layer)
    (currentJumpSafeReps : Z) : list Pattern :=
  match jumpSafe layer with
  | Some l =>
      insert_all
        (fun obp =>
           mkPattern (file obp) (lua_add currentJumpSafeReps (repetitions obp)))
        l []
  | None => []
  end.

Definition build_spatterSafePatterns (layer : Layer) : list Pattern := [].

Definition build_meltPatterns (layer : Layer) : list Pattern :=
  let meltPatterns := [] in
  let meltPatterns :=
    match spatterSafe layer with
    | Some _ =>
        insert_all (fun obp => mkPattern (file obp) (repetitions obp))
                   (melt layer) meltPatterns
    | None => meltPatterns
    end in
  insert_all (fun obp => mkPattern (file obp) (repetitions obp))
             (melt layer) meltPatterns.

Definition build_heatBalancePatterns (layer : Layer)
    (heatBalanceRepetitions : Z) : list Pattern :=
  match heatBalance layer with
  | Some l =>
      insert_all
        (fun obp =>
           mkPattern (file obp)
                     (lua_add (repetitions obp) heatBalanceRepetitions))
        l []
  | None => []
  end.

Definition exposing_message (index retryCount : Z) : string :=
  "Exposing OBP files of layer " ++ show index ++ "." ++
  (if 0 <? retryCount then " Retry " ++ show retryCount else "").

(** The value that a pass started in [s] reads from PreHeatRepetitions, and
    the one it reads from PostHeatRepetitions afterwards. *)
Definition pre_heat_read (s : State W) : Z :=
  fst (m_get_field mach jump_safe_input "repetitions" (world s)).

Definition post_heat_read (s : State W) : Z :=
  fst (m_get_field mach heat_balance_input "repetitions"
         (m_print mach ("Jump safe reps: " ++ show (pre_heat_read s) ++ "")
            (snd (m_get_field mach jump_safe_input "repetitions" (world s))))).

(** From the start of a pass to the answer of
    [machine.start_process_step_exposures]. *)
Definition submit (index : Z) (layer : Layer) (retryCount : Z) : M Z :=
  currentJumpSafeReps <- get_field jump_safe_input "repetitions" ;;
  print ("Jump safe reps: " ++ show currentJumpSafeReps ++ "") ;;
  let jumpSafePatterns := build_jumpSafePatterns layer currentJumpSafeReps in
  let spatterSafePatterns := build_spatterSafePatterns layer in
  let meltPatterns := build_meltPatterns layer in
  heatBalanceRepetitions <- get_field heat_balance_input "repetitions" ;;
  print ("Heat balance reps: " ++ show heatBalanceRepetitions ++ "") ;;
  let heatBalancePatterns :=
    build_heatBalancePatterns layer heatBalanceRepetitions in
  log (exposing_message index retryCount) ;;
  start_process_step_exposures
    jumpSafePatterns spatterSafePatterns meltPatterns heatBalancePatterns.

(** The chain [if err_id == 0 ... elseif err_id == 4 ... end]; the answer is
    the new value of [layerDone].  No branch is taken for another [err_id]:
    [layerDone] and the global [newPowderLayer] keep their values. *)
Definition classify (err_id : Z) (layerDone : bool) : M bool :=
  if err_id =? 0 then
    ret true
  else if err_id =? 1 then
    log "Arc trip during Jump Safe exposure" ;;
    set_newPowderLayer false ;;
    ret false
  else if err_id =? 2 then
    log "Arc trip during Spatter Safe exposure" ;;
    set_newPowderLayer false ;;
    ret false
  else if err_id =? 3 then
    log "Arc trip during Melt exposure" ;;
    set_newPowderLayer true ;;
    ret false
  else if err_id =? 4 then
    log "Arc trip during Heat Balance exposure" ;;
    set_newPowderLayer false ;;
    ret true
  else
    ret layerDone.

(** From the answer [err_id] to the end of the pass; the answer is the new
    value of the locals [layerDone] and [retryCount]. *)
Definition after_exposure (err_id : Z) (layerDone : bool) (retryCount : Z)
    : M (bool * Z) :=
  layerDone <- classify err_id layerDone ;;
  when (negb (err_id =? 0))
    (clear_exposure_queue ;;
     flag <- get_newPowderLayer ;;
     recovered <- restart_after_arc_trip flag 60 ;;
     when (negb recovered) (logfatal "Unable to recover from arc trip")) ;;
  let retryCount := if negb layerDone then retryCount + 1 else retryCount in
  when (maxRetryCount <? retryCount)
    (logfatal "Maximum retry count exceeded!") ;;
  ret (layerDone, retryCount).

Definition attempt (index : Z) (layer : Layer) (layerDone : bool)
    (retryCount : Z) : M (bool * Z) :=
  err_id <- submit index layer retryCount ;;
  after_exposure err_id layerDone retryCount.

(** [while not layerDone do ... end] *)
Fixpoint expose_loop (fuel : nat) (index : Z) (layer : Layer)
    (layerDone : bool) (retryCount : Z) : M unit :=
  if layerDone then ret tt
  else
    match fuel with
    | O => diverge
    | S fuel' =>
        st <- attempt index layer layerDone retryCount ;;
        expose_loop fuel' index layer (fst st) (snd st)
    end.

(** *** The body of [for index, layer in ipairs(build_info.layers)] *)

Definition process_layer (fuel : nat) (num_layers : Z) (feed : LayerFeed)
    (index : Z) (layer : Layer) : M unit :=
  print ("Starting to process layer " ++ show index) ;;
  publish_layers num_layers index ;;
  log "Waiting for beam power low" ;;
  wait_for_beam_power_low fuel ;;
  log ("Recoat cycle. Layer " ++ show index ++ "") ;;
  recoated <- recoat_cycle feed ;;
  when (negb recoated) (logfatal "Unable to complete Layerfeed.") ;;
  on <- beam_is_on ;;
  when (negb on)
    (log "Beam was off after recoating. Turning it on!" ;;
     restarted <- restartHV 60 ;;
     when (negb restarted) (logfatal "Timeout waiting for beam on")) ;;
  let layerDone := false in
  let retryCount := 0 in
  expose_loop fuel index layer layerDone retryCount.

Fixpoint process_layers (fuel : nat) (num_layers : Z) (feed : LayerFeed)
    (index : Z) (ls : list Layer) : M unit :=
  match ls with
  | [] => ret tt
  | layer :: rest =>
      process_layer fuel num_layers feed index layer ;;
      process_layers fuel num_layers feed (index + 1) rest
  end.

(** *** The script *)

(** [if not machine.beam_is_on() and not machine.restartHV(60) then
    logfatal("Failed to start beam") end]: [restartHV] is called only when
    the beam is off. *)
Definition ensure_beam : M unit :=
  on <- beam_is_on ;;
  when (negb on)
    (restarted <- restartHV 60 ;;
     when (negb restarted) (logfatal "Failed to start beam")).

Definition temperature_reached (sensor : string) (target : Q) : M bool :=
  ensure_beam ;;
  temperature <- get_temperature sensor ;;
  ret match temperature with
      | Some t => Qle_bool target t
      | None => false
      end.

Definition build (fuel : nat) (build_info : BuildInfo) : M unit :=
  let start_heat := startHeat build_info in
  let temperature_sensor := temperatureSensor start_heat in
  let target_temperature := targetTemperature start_heat in
  let num_layers := Z.of_nat (List.length (layers build_info)) in
  let layerfeed :=
    match layerFeed build_info with Some f => f | None => [] end in
  publish_layers num_layers 0 ;;
  add_subscription jump_safe_input ;;
  add_subscription heat_balance_input ;;
  publish_field "Parameters" "Name" "PreHeatRepetitions" "repetitions"
                (VNumber 0) ;;
  publish_field "Parameters" "Name" "PostHeatRepetitions" "repetitions"
                (VNumber 0) ;;
  log "Init" ;;
  log "Turning on the beam" ;;
  ensure_beam ;;
  log "The beam is active" ;;
  log ("Start heating to target temperature: " ++ tostring target_temperature) ;;
  start_exposure (sh_file start_heat) 4294967295 ;;
  print ("Waiting for " ++ tostring (sh_timeout start_heat) ++
         " seconds or until target temperature is reached.") ;;
  reached <- wait fuel (temperature_reached temperature_sensor target_temperature)
                  (sh_timeout start_heat) (Some (mkSettings (Some 0.5%Q))) ;;
  when (negb reached) (logfatal "Failed to reach target temperature") ;;
  cleared <- clear_exposure_queue ;;
  when (negb cleared) (logfatal "Failed to clear exposure queue") ;;
  print ("OBF has " ++ show num_layers ++ " layers.") ;;
  process_layers fuel num_layers layerfeed 1 (layers build_info) ;;
  clear_exposure_queue ;;
  log "Waiting for beam power low" ;;
  wait_for_beam_power_low fuel ;;
  log "Turning off the beam" ;;
  beam_off ;;
  log "Turning off the PSU" ;;
  power_off ;;
  log "Build finished".

End Script.

(** ** A simulated host

    A host whose answers are fixed in advance, for running the script on
    concrete inputs.  Its clock moves only in [system.sleep], by the interval
    asked for; [os.time] is the clock in whole seconds.  The beam current
    reads 5 before second [hv_low_from] of the clock and 0 from then on. *)
Record SimWorld : Type := mkSim {
  clock : Q;
  beam : bool;
  restart_ok : bool;
  temperature : option Q;
  hv_low_from : Q;
  clear_ok : bool;
  recoat_ok : bool;
  exposure_results : list Z;
  recover_ok : bool;
  pre_heat : Z;
  post_heat : Z
}.

Definition topic_eqb (a b : Topic) : bool :=
  match a, b with
  | (a1, a2, a3), (b1, b2, b3) =>
      String.eqb a1 b1 && String.eqb a2 b2 && String.eqb a3 b3
  end.

Definition sim_next_exposure (w : SimWorld) : Z * SimWorld :=
  match exposure_results w with
  | [] => (0, w)
  | e :: rest =>
      (e, mkSim (clock w) (beam w) (restart_ok w) (temperature w)
                (hv_low_from w) (clear_ok w) (recoat_ok w) rest
                (recover_ok w) (pre_heat w) (post_heat w))
  end.

Definition sim_sleep (i : Q) (w : SimWorld) : SimWorld :=
  mkSim (Qred (clock w + i)) (beam w) (restart_ok w) (temperature w)
        (hv_low_from w) (clear_ok w) (recoat_ok w) (exposure_results w)
        (recover_ok w) (pre_heat w) (post_heat w).

Definition sim_hv_current (w : SimWorld) : Q :=
  if Qle_bool (hv_low_from w) (clock w) then 0%Q else 5%Q.

Definition sim : Machine SimWorld := {|
  m_beam_is_on := fun w => (beam w, w);
  m_restartHV := fun _ w => (restart_ok w, w);
  m_start_exposure := fun _ _ w => w;
  m_get_temperature := fun _ w => (temperature w, w);
  m_get_hv_current := fun w => (Some (sim_hv_current w), w);
  m_clear_exposure_queue := fun w => (clear_ok w, w);
  m_recoat_cycle := fun _ w => (recoat_ok w, w);
  m_start_process_step_exposures := fun _ _ _ _ w => sim_next_exposure w;
  m_restart_after_arc_trip := fun _ _ w => (recover_ok w, w);
  m_beam_off := fun w => w;
  m_power_off := fun w => w;
  m_os_time := fun w => (Qfloor (clock w), w);
  m_sleep := sim_sleep;
  m_print := fun _ w => w;
  m_publish_field := fun _ _ _ _ _ w => w;
  m_publish_layers := fun _ _ w => w;
  m_add_subscription := fun _ w => w;
  m_get_field := fun t _ w =>
    (if topic_eqb t jump_safe_input then pre_heat w else post_heat w, w)
|}.

(** A host on which every call succeeds: the beam is on, the sensor reads
    800 degrees, the beam current is low from the start, the exposures
    answer [results] one after the other and 0 once [results] is used up. *)
Definition healthy (results : list Z) (pre post : Z) : SimWorld :=
  mkSim 0 true true (Some 800%Q) 0%Q true true results true pre post.

(** The same host, started at second [start] of its clock, whose beam
    current gets low at second [low_from]. *)
Definition beam_low_from (start low_from : Q) : SimWorld :=
  mkSim start true true (Some 800%Q) low_from true true [] true 0 0.

Definition start_of (w : SimWorld) : State SimWorld := mkState w None.

(** A layer with another [spatterSafe] entry. *)
Definition with_spatterSafe (layer : Layer) (ss : option (list Pattern))
    : Layer :=
  mkLayer (jumpSafe layer) ss (melt layer) (heatBalance layer).

(** Two layers for concrete runs: one as the converter writes it and the
    same one with a [spatterSafe] list. *)
Definition plain_layer : Layer :=
  mkLayer (Some [mkPattern "obp/preheat.obp" 2]) None
          [mkPattern "obp/layer1.obp" 1]
          (Some [mkPattern "obp/postheat.obp" 5]).

Definition spatter_layer : Layer :=
  with_spatterSafe plain_layer (Some [mkPattern "obp/spatter.obp" 3]).

(** A predicate for [wait] that answers and takes no time on the
    simulated host. *)
Definition timeless (pred : M SimWorld bool) : Prop :=
  forall s, res (pred s) <> Diverge /\
            (clock (world (final (pred s))) == clock (world s))%Q.

(** How the simulated runs print a number: its whole part. *)
Definition sim_tostring (q : Q) : string := show (Qfloor q).

(** A build of one layer for the simulated runs. *)
Definition one_layer_build : BuildInfo :=
  mkBuildInfo (mkStartHeat "obp/start_heat.obp" "Sensor1" 700%Q 100%Q) None
              [plain_layer].

(** The two host calls of [log message]. *)
Definition activity (message : string) : list Event :=
  [EvPrint message;
   EvPublishField "BuildStatus" "Trace" "Activity" "current_activity"
                  (VText message)].

(** The host calls of [logfatal message], where [answer] is what the queue
    clear returned. *)
Definition fatal_events (message : string) (answer : bool) : list Event :=
  (activity ("Build Error: " ++ message) ++ [EvClearExposureQueue answer])%list.

(** How often a trace submits the four pattern groups. *)
Definition is_exposure (e : Event) : bool :=
  match e with
  | EvExposures _ _ _ _ _ => true
  | _ => false
  end.

Definition exposures (t : list Event) : nat :=
  List.length (filter is_exposure t).

(** The announcements of passes in a trace: the prints of
    [exposing_message], which show the layer index and the retry counter
    of the pass. *)
Fixpoint starts_with (p s : string) : bool :=
  match p with
  | EmptyString => true
  | String a p' =>
      match s with
      | EmptyString => false
      | String b s' => Ascii.eqb a b && starts_with p' s'
      end
  end.

Definition is_announcement (e : Event) : bool :=
  match e with
  | EvPrint message => starts_with "Exposing OBP files of layer " message
  | _ => false
  end.

Definition announcements (t : list Event) : list Event :=
  filter is_announcement t.

(** A piece of the script that announces no pass. *)
Definition quiet {W A} (m : M W A) : Prop :=
  forall s, announcements (emitted (m s)) = [].

(** The announcements of [n] passes of layer [index] whose counters are
    [first], [first + 1], ... *)
Definition layer_block (index first : Z) (n : nat) : list Event :=
  map (fun k => EvPrint (exposing_message index (first + Z.of_nat k)))
      (seq 0 n).

(** The announcements of consecutive layers from [index] on, layer by
    layer, each with its counters from 0 on; [ns] gives the number of
    passes of each layer. *)
Fixpoint blocks (index : Z) (ns : list nat) : list Event :=
  match ns with
  | [] => []
  | n :: ns' => (layer_block index 0 n ++ blocks (index + 1) ns')%list
  end.

(** The groups of the submissions of a trace, in order. *)
Definition groups_of (e : Event)
    : option (list Pattern * list Pattern * list Pattern * list Pattern) :=
  match e with
  | EvExposures js ss ml hb _ => Some (js, ss, ml, hb)
  | _ => None
  end.

Fixpoint submissions (t : list Event)
    : list (list Pattern * list Pattern * list Pattern * list Pattern) :=
  match t with
  | [] => []
  | e :: t' =>
      match groups_of e with
      | Some g => g :: submissions t'
      | None => submissions t'
      end
  end.

(** The fresh-powder flags given to [machine.restart_after_arc_trip] in a
    trace, in order. *)
Fixpoint recovery_flags (t : list Event) : list (option bool) :=
  match t with
  | [] => []
  | EvRestartAfterArcTrip flag _ _ :: t' => flag :: recovery_flags t'
  | _ :: t' => recovery_flags t'
  end.

(** Whether a trace publishes [message] as an activity. *)
Definition is_activity (message : string) (e : Event) : bool :=
  match e with
  | EvPublishField a b c fld (VText v) =>
      String.eqb a "BuildStatus" && String.eqb b "Trace" &&
      String.eqb c "Activity" && String.eqb fld "current_activity" &&
      String.eqb v message
  | _ => false
  end.

Definition publishes (message : string) (t : list Event) : bool :=
  existsb (is_activity message) t.

(** The texts published as activities in a trace, in order. *)
Fixpoint activities (t : list Event) : list string :=
  match t with
  | [] => []
  | EvPublishField "BuildStatus" "Trace" "Activity" "current_activity"
                   (VText v) :: t' => v :: activities t'
  | _ :: t' => activities t'
  end.

(** A trace that ends with the publication of [msg] and a queue clear, and
    one that ends with a queue clear. *)
Definition published_abort (msg : string) (t : list Event) : Prop :=
  exists pre answer,
    t = (pre ++ activity msg ++ [EvClearExposureQueue answer])%list.

Definition bare_abort (t : list Event) : Prop :=
  exists pre answer, t = (pre ++ [EvClearExposureQueue answer])%list.

Definition aborts_well {W A} (m : M W A) : Prop :=
  forall s msg,
    res (m s) = Raise msg ->
    published_abort msg (emitted (m s)) \/
    (msg = "Build Aborted: BeamPowerLow condition timed out" /\
     bare_abort (emitted (m s))).

(** ** Counting the host calls of a run *)

(** How many events of a trace are of the kind [c]. *)
Definition count (c : Event -> bool) (t : list Event) : nat :=
  List.length (filter c t).

(** The recoat cycles of a trace. *)
Definition is_recoat (e : Event) : bool :=
  match e with EvRecoatCycle _ _ => true | _ => false end.

(** A piece of the script that makes at most [k] host calls of the kind
    [c], from every state. *)
Definition at_most {W A} (c : Event -> bool) (k : nat) (m : M W A) : Prop :=
  forall s, (count c (emitted (m s)) <= k)%nat.

(** A host on which the beam is on, the sensor has reached the target,
    the queue clears, the beam current is low, the recoater works and
    every submission is answered with 0, whatever its state. *)
Definition never_fails {W} (mach : Machine W) (sensor : string) (target : Q)
    : Prop :=
  (forall w, fst (m_beam_is_on mach w) = true) /\
  (forall w, exists t,
     fst (m_get_temperature mach sensor w) = Some t /\
     Qle_bool target t = true) /\
  (forall w, fst (m_clear_exposure_queue mach w) = true) /\
  (forall w, exists c,
     fst (m_get_hv_current mach w) = Some c /\ Qle_bool c 1 = true) /\
  (forall feed w, fst (m_recoat_cycle mach feed w) = true) /\
  (forall js ss ml hb w,
     fst (m_start_process_step_exposures mach js ss ml hb w) = 0).

(** The progress published in a trace: the pairs of [build_layers] and
    [current_layer], in order. *)
Fixpoint progress (t : list Event) : list (Z * Z) :=
  match t with
  | [] => []
  | EvPublishLayers a b :: t' => (a, b) :: progress t'
  | _ :: t' => progress t'
  end.

Definition is_sleep (e : Event) : bool :=
  match e with EvSleep _ => true | _ => false end.

(** A host on which nothing fails and nothing takes time. *)
Definition ideal (reading : Q) : Machine unit := {|
  m_beam_is_on := fun w => (true, w);
  m_restartHV := fun _ w => (true, w);
  m_start_exposure := fun _ _ w => w;
  m_get_temperature := fun _ w => (Some reading, w);
  m_get_hv_current := fun w => (Some 0%Q, w);
  m_clear_exposure_queue := fun w => (true, w);
  m_recoat_cycle := fun _ w => (true, w);
  m_start_process_step_exposures := fun _ _ _ _ w => (0, w);
  m_restart_after_arc_trip := fun _ _ w => (true, w);
  m_beam_off := fun w => w;
  m_power_off := fun w => w;
  m_os_time := fun w => (0, w);
  m_sleep := fun _ w => w;
  m_print := fun _ w => w;
  m_publish_field := fun _ _ _ _ _ w => w;
  m_publish_layers := fun _ _ w => w;
  m_add_subscription := fun _ w => w;
  m_get_field := fun _ _ w => (0, w)
|}.

(** What a trace is counted for. *)
Record Summary : Type := mkSummary {
  n_exposures : nat;
  n_recoats : nat;
  n_sleeps : nat;
  flags : list (option bool);
  published : list (Z * Z)
}.

Definition summary (t : list Event) : Summary :=
  mkSummary (exposures t) (count is_recoat t) (count is_sleep t)
            (recovery_flags t) (progress t).

Definition both (a b : Summary) : Summary :=
  mkSummary (n_exposures a + n_exposures b) (n_recoats a + n_recoats b)
            (n_sleeps a + n_sleeps b) (flags a ++ flags b)
            (published a ++ published b).

Definition nothing : Summary := mkSummary 0 0 0 [] [].

(** A piece of the script that, from every state, ends with a value in
    [P] after a trace summed up by [sm]. *)
Definition yields {W A} (m : M W A) (P : A -> Prop) (sm : Summary) : Prop :=
  forall s, exists a s' t,
    m s = mkRun (Ok a) s' t /\ P a /\ summary t = sm.

(** A piece of the script whose trace ends with [tail] whenever it ends
    with a value. *)
Definition trace_ends_with {W A} (tail : list Event) (m : M W A) : Prop :=
  forall s a, res (m s) = Ok a ->
    exists pre, emitted (m s) = (pre ++ tail)%list.

(** The host calls of the teardown. *)
Definition teardown_tail : list Event :=
  (activity "Turning off the beam" ++ [EvBeamOff] ++
   activity "Turning off the PSU" ++ [EvPowerOff] ++
   activity "Build finished")%list.

(** The work on a layer: a recoat cycle or a submission. *)
Definition is_layer_work (e : Event) : bool := is_recoat e || is_exposure e.

(** A piece of the script that does no work on a layer and does not end
    with a value unless, before all such work, a reading of [sensor] at or
    above [target] was directly followed by a queue clear that worked. *)
Definition starts_heated {W A} (sensor : string) (target : Q) (m : M W A)
    : Prop :=
  forall s,
    (0 < count is_layer_work (emitted (m s)))%nat \/
    (exists a, res (m s) = Ok a) ->
    exists pre t post,
      emitted (m s) =
        (pre ++ EvGetTemperature sensor (Some t) ::
                EvClearExposureQueue true :: post)%list /\
      Qle_bool target t = true /\
      count is_layer_work pre = 0%nat.

End Controller.

Module Converter.

Import Controller.

(** ** The layer loop of [convert] *)

(** An entry of [boss_data["build"]["build"]["files"]]: one file name or a
    list of file names. *)
Inductive BossLayer : Type :=
| OneFile (f : string)
| Files (fs : list string).

(** [boss_data["build"]["preheat"]] and [boss_data["build"]["postheat"]]. *)
Record BossHeat : Type := mkBossHeat {
  bh_file : string;
  bh_repetitions : Z
}.

Section Convert.

(** [pathlib.PurePath(p).name] *)
Variable path_name : string -> string.

Variable boss_preheat : BossHeat.
Variable boss_postheat : BossHeat.

Definition jump_safe_dict : Pattern :=
  mkPattern ("obp/" ++ path_name (bh_file boss_preheat))
            (bh_repetitions boss_preheat).

Definition heat_balance_dict : Pattern :=
  mkPattern ("obp/" ++ path_name (bh_file boss_postheat))
            (bh_repetitions boss_postheat).

(** The body of [for boss_layer in ...] after the [break] test: the layer
    that is appended. *)
Definition make_layer (boss_layer : BossLayer) : Layer :=
  let files :=
    match boss_layer with
    | Files fs => fs
    | OneFile f => [f]
    end in
  let layer_melt :=
    fold_left
      (fun ml f => (ml ++ [mkPattern ("obp/" ++ path_name f) 1])%list)
      files [] in
  mkLayer (Some [jump_safe_dict]) None layer_melt (Some [heat_balance_dict]).

Definition len (ls : list Layer) : Z := Z.of_nat (List.length ls).

(** [for boss_layer in files: if len(layers) >= n: break ...] *)
Fixpoint for_files (n : Z) (files : list BossLayer) (ls : list Layer)
    : list Layer :=
  match files with
  | [] => ls
  | boss_layer :: rest =>
      if n <=? len ls then ls
      else for_files n rest (ls ++ [make_layer boss_layer])%list
  end.

(** [while len(layers) < n: for ...]; [None] when the budget of passes is
    used up. *)
Fixpoint while_layers (fuel : nat) (n : Z) (files : list BossLayer)
    (ls : list Layer) : option (list Layer) :=
  if len ls <? n then
    match fuel with
    | O => None
    | S fuel' => while_layers fuel' n files (for_files n files ls)
    end
  else Some ls.

(** The list [build_info["layers"]] after the loop, from the empty list. *)
Definition convert_layers (fuel : nat) (n : Z) (files : list BossLayer)
    : option (list Layer) :=
  while_layers fuel n files [].

End Convert.

(** A build description with two entries, the second one a list. *)
Definition sample_files : list BossLayer :=
  [OneFile "layers/a.obp"; Files ["layers/b.obp"; "layers/c.obp"]].

Definition sample_preheat : BossHeat := mkBossHeat "heat/pre.obp" 2.
Definition sample_postheat : BossHeat := mkBossHeat "heat/post.obp" 5.

(** The last component of a path written with [/]. *)
Fixpoint last_component (acc p : string) : string :=
  match p with
  | EmptyString => acc
  | String c p' =>
      if Ascii.eqb c "/"%char then last_component EmptyString p'
      else last_component (acc ++ String c EmptyString) p'
  end.

Definition sample_path_name (p : string) : string :=
  last_component EmptyString p.

(** The file names of an entry of the build description. *)
Definition boss_files (boss_layer : BossLayer) : list string :=
  match boss_layer with
  | Files fs => fs
  | OneFile f => [f]
  end.

End Converter.

(** * The key conversion of [cli.py]

    [snake_to_camel] and [convert_keys_to_camel], on keys of ASCII
    characters. *)

Module KeyCase.

(** [s.split("_")]: the parts between the underscores, empty parts kept. *)
Fixpoint split_underscore (s : string) : list string :=
  match s with
  | EmptyString => [EmptyString]
  | String c s' =>
      if Ascii.eqb c "_"%char then EmptyString :: split_underscore s'
      else
        match split_underscore s' with
        | p :: ps => String c p :: ps
        | [] => [String c EmptyString]
        end
  end.

Definition is_lower (c : ascii) : bool :=
  (97 <=? nat_of_ascii c)%nat && (nat_of_ascii c <=? 122)%nat.

Definition is_upper (c : ascii) : bool :=
  (65 <=? nat_of_ascii c)%nat && (nat_of_ascii c <=? 90)%nat.

(** [str.upper] and [str.lower] on one character of an ASCII string. *)
Definition upper (c : ascii) : ascii :=
  if is_lower c then ascii_of_nat (nat_of_ascii c - 32) else c.

Definition lower (c : ascii) : ascii :=
  if is_upper c then ascii_of_nat (nat_of_ascii c + 32) else c.

Fixpoint lower_all (s : string) : string :=
  match s with
  | EmptyString => EmptyString
  | String c s' => String (lower c) (lower_all s')
  end.

(** [word.capitalize()]: the first character in upper case, the others in
    lower case. *)
Definition capitalize (word : string) : string :=
  match word with
  | EmptyString => EmptyString
  | String c s' => String (upper c) (lower_all s')
  end.

(** ["".join(words)] *)
Fixpoint join (words : list string) : string :=
  match words with
  | [] => EmptyString
  | w :: ws => w ++ join ws
  end.

Definition snake_to_camel (snake_str : string) : string :=
  match split_underscore snake_str with
  | [] => EmptyString
  | first :: others => first ++ join (map capitalize others)
  end.

Fixpoint underscores (s : string) : nat :=
  match s with
  | EmptyString => 0
  | String c s' =>
      (if Ascii.eqb c "_"%char then 1 else 0) + underscores s'
  end.

End KeyCase.

Module KeyDict.

Import KeyCase.

(** A value of the YAML build description. *)
#[local] Unset Elimination Schemes.
Inductive pyvalue : Type :=
| PNone
| PBool (b : bool)
| PInt (z : Z)
| PFloat (q : Q)
| PStr (s : string)
| PList (l : list pyvalue)
| PDict (d : list (string * pyvalue)).
#[local] Set Elimination Schemes.

(** [d[k] = v] on a dict kept as the list of its items in insertion order:
    a key that is there keeps its place and gets the new value. *)
Fixpoint dict_set (d : list (string * pyvalue)) (k : string) (v : pyvalue)
    : list (string * pyvalue) :=
  match d with
  | [] => [(k, v)]
  | (k', v') :: d' =>
      if String.eqb k' k then (k', v) :: d'
      else (k', v') :: dict_set d' k v
  end.

(** [d.get(k)] *)
Fixpoint dict_get (d : list (string * pyvalue)) (k : string)
    : option pyvalue :=
  match d with
  | [] => None
  | (k', v') :: d' => if String.eqb k' k then Some v' else dict_get d' k
  end.

(** The value that [convert_keys_to_camel] puts under the new key: the
    converted dict for a dict, the value itself otherwise. *)
Fixpoint camel_value (v : pyvalue) : pyvalue :=
  match v with
  | PDict d =>
      PDict
        ((fix items (d : list (string * pyvalue))
              (new_dict : list (string * pyvalue)) :=
            match d with
            | [] => new_dict
            | (key, value) :: d' =>
                items d' (dict_set new_dict (snake_to_camel key)
                                   (camel_value value))
            end) d [])
  | _ => v
  end.

(** The loop [for key, value in obj.items()] from [new_dict]. *)
Fixpoint camel_items (d new_dict : list (string * pyvalue))
    : list (string * pyvalue) :=
  match d with
  | [] => new_dict
  | (key, value) :: d' =>
      camel_items d' (dict_set new_dict (snake_to_camel key)
                               (camel_value value))
  end.

Definition convert_keys_to_camel (obj : pyvalue)
    : list (string * pyvalue) + string :=
  match obj with
  | PDict d => inl (camel_items d [])
  | _ => inr "Input must be a dictionary."
  end.

(** Every key of a dict, and of the dicts that are values of a dict, is
    free of underscores. *)
Fixpoint clean (v : pyvalue) : Prop :=
  match v with
  | PDict d =>
      (fix all (d : list (string * pyvalue)) : Prop :=
         match d with
         | [] => True
         | (k, x) :: d' => underscores k = 0%nat /\ clean x /\ all d'
         end) d
  | _ => True
  end.

Fixpoint clean_items (d : list (string * pyvalue)) : Prop :=
  match d with
  | [] => True
  | (k, x) :: d' => underscores k = 0%nat /\ clean x /\ clean_items d'
  end.

(** The value that the last item of [d] with the new key [k] gets. *)
Fixpoint last_with (d : list (string * pyvalue)) (k : string)
    (found : option pyvalue) : option pyvalue :=
  match d with
  | [] => found
  | (key, value) :: d' =>
      last_with d' k
        (if String.eqb (snake_to_camel key) k then Some (camel_value value)
         else found)
  end.

(** Induction on a value, with the values of a dict as smaller values. *)
Section PyInd.
Variable P : pyvalue -> Prop.
Hypothesis HNone : P PNone.
Hypothesis HBool : forall b, P (PBool b).
Hypothesis HInt : forall z, P (PInt z).
Hypothesis HFloat : forall q, P (PFloat q).
Hypothesis HStr : forall s, P (PStr s).
Hypothesis HList : forall l, P (PList l).
Hypothesis HDict :
  forall d, Forall (fun kv => P (snd kv)) d -> P (PDict d).

Fixpoint pyvalue_dict_ind (v : pyvalue) : P v :=
  match v with
  | PNone => HNone
  | PBool b => HBool b
  | PInt z => HInt z
  | PFloat q => HFloat q
  | PStr s => HStr s
  | PList l => HList l
  | PDict d =>
      HDict d
        ((fix go (d : list (string * pyvalue))
            : Forall (fun kv => P (snd kv)) d :=
            match d with
            | [] => Forall_nil _
            | (k, x) :: d' =>
                Forall_cons (k, x) (pyvalue_dict_ind x) (go d')
            end) d)
  end.
End PyInd.

End KeyDict.

(** * The collection of the OBP files in [convert] *)

Module ObpFiles.

(** [s.endswith(suffix)] *)
Fixpoint ends_with (suffix s : string) : bool :=
  String.eqb s suffix ||
  match s with
  | EmptyString => false
  | String _ s' => ends_with suffix s'
  end.

Definition is_obp (f : string) : bool :=
  ends_with ".obp" f || ends_with ".gz" f.

(** [basename in basenames] on the set kept as a list. *)
Definition mem (x : string) (l : list string) : bool :=
  existsb (String.eqb x) l.

Section Collect.

(** [os.path.join] and [os.path.basename] *)
Variable path_join : string -> string -> string.
Variable basename : string -> string.

(** The locals [obp_files] and [basenames]. *)
Definition Found : Type := (list string * list string)%type.

(** The body of [for file in files]. *)
Definition visit (root f : string) (st : Found) : Found + string :=
  if is_obp f then
    let full_path := path_join root f in
    let b := basename f in
    if mem b (snd st) then inr ("Duplicate file name found: " ++ b)
    else inl ((fst st ++ [full_path])%list, b :: snd st)
  else inl st.

Fixpoint visit_files (root : string) (files : list string) (st : Found)
    : Found + string :=
  match files with
  | [] => inl st
  | f :: rest =>
      match visit root f st with
      | inl st' => visit_files root rest st'
      | inr e => inr e
      end
  end.

(** [for root, dirs, files in os.walk(input_dir)], on the pairs of a
    directory and its file names that the walk gives. *)
Fixpoint visit_dirs (walk : list (string * list string)) (st : Found)
    : Found + string :=
  match walk with
  | [] => inl st
  | (root, files) :: rest =>
      match visit_files root files st with
      | inl st' => visit_dirs rest st'
      | inr e => inr e
      end
  end.

Definition collect_obp_files (walk : list (string * list string))
    : list string + string :=
  match visit_dirs walk ([], []) with
  | inl st => inl (fst st)
  | inr e => inr e
  end.

(** The files of the walk that end in [.obp] or [.gz], each with its
    directory, in the order of the walk. *)
Fixpoint selected (walk : list (string * list string))
    : list (string * string) :=
  match walk with
  | [] => []
  | (root, files) :: rest =>
      (map (fun f => (root, f)) (filter is_obp files) ++ selected rest)%list
  end.

(** The state of the loops after the files [sel]: the paths in order and
    the set of their base names. *)
Definition state_of (sel : list (string * string)) (st : Found) : Prop :=
  fst st = map (fun rf => path_join (fst rf) (snd rf)) sel /\
  (forall b, In b (snd st) <-> In b (map (fun rf => basename (snd rf)) sel)).

(** The base names of the files [sel]. *)
Definition names (sel : list (string * string)) : list string :=
  map (fun rf => basename (snd rf)) sel.

(** What the loops answer after the files [sel]. *)
Definition outcome (sel : list (string * string)) (r : Found + string)
    : Prop :=
  match r with
  | inl st => state_of sel st /\ NoDup (names sel)
  | inr e =>
      ~ NoDup (names sel) /\
      exists b, e = "Duplicate file name found: " ++ b /\ In b (names sel)
  end.

(** The name of the archive entry of a collected path. *)
Definition entry_name (path : string) : string := "obp/" ++ basename path.

End Collect.

(** A join with [/] and a walk over two directories, for concrete runs. *)
Definition sample_join (root f : string) : string := root ++ "/" ++ f.

Definition sample_walk : list (string * list string) :=
  [("build", ["build.yaml"; "start.obp"]);
   ("build/layers", ["a.obp"; "b.obp.gz"; "notes.txt"])].

End ObpFiles.

(** * [generateHeatFile.py] *)

Module HeatFile.

Section Heat.

(** The floating-point numbers of numpy, with the operations the code
    uses. *)
Variable F : Type.
Variable mul add : F -> F -> F.
Variable of_int : Z -> F.

(** The three constants of [bezier_circle]. *)
Variable a b c : F.

Record Point : Type := mkPoint { px : F; py : F }.

Record Beamparameters : Type := mkBeam { spot_size : F; power : F }.

Record Curve : Type := mkCurve {
  p1 : Point; p2 : Point; p3 : Point; p4 : Point;
  speed : Z;
  bp : Beamparameters
}.

(** One of the four parts of the circle: [i], [j] say whether the control
    points are mirrored in x and in y. *)
Definition segment (beamPower spotSize : F) (speed' : Z) (midpoint : F * F)
    (radius : Z) (i j : bool) : Curve :=
  let control_coordinates :=
    [(of_int 0, a); (b, c); (c, b); (a, of_int 0)] in
  let control_coordinates :=
    map (fun xy => (mul (fst xy) (of_int radius), mul (snd xy) (of_int radius)))
        control_coordinates in
  let control_coordinates :=
    if i then map (fun xy => (mul (fst xy) (of_int (-1)), snd xy))
                  control_coordinates
    else control_coordinates in
  let control_coordinates :=
    if j then map (fun xy => (fst xy, mul (snd xy) (of_int (-1))))
                  control_coordinates
    else control_coordinates in
  let control_coordinates :=
    map (fun xy => (add (fst xy) (fst midpoint), add (snd xy) (snd midpoint)))
        control_coordinates in
  let control_points :=
    map (fun xy => mkPoint (fst xy) (snd xy)) control_coordinates in
  let d := mkPoint (of_int 0) (of_int 0) in
  mkCurve (nth 0 control_points d) (nth 1 control_points d)
          (nth 2 control_points d) (nth 3 control_points d)
          speed' (mkBeam spotSize beamPower).

Definition bezier_circle (beamPower spotSize : F) (speed' : Z)
    (midpoint : F * F) (radius : Z) : list Curve :=
  [segment beamPower spotSize speed' midpoint radius false false;
   segment beamPower spotSize speed' midpoint radius false true;
   segment beamPower spotSize speed' midpoint radius true false;
   segment beamPower spotSize speed' midpoint radius true true].

(** The defaults of the parameters of [bezier_circle]. *)
Definition default_power : F := of_int 3000.
Definition default_spot : F := of_int 1200.
Definition default_speed : Z := 9922222.
Definition default_midpoint : F * F := (of_int 0, of_int 0).

(** The loop [while i <= 44100] of [createHeatFile]. *)
Fixpoint heat_loop (fuel : nat) (i : Z) (cur_2 : list Curve) (counter : Z)
    : option (list Curve) :=
  if i <=? 44100 then
    match fuel with
    | O => None
    | S fuel' =>
        let i := i + 700 in
        let cur_2 :=
          (cur_2 ++ bezier_circle default_power default_spot
                      (10000000 - 77778 * counter) default_midpoint i)%list in
        heat_loop fuel' i cur_2 (counter + 1)
    end
  else Some cur_2.

(** The curves that [createHeatFile] hands to [obp.write_obp]. *)
Definition createHeatFile (fuel : nat) (beampower : F)
    : option (list Curve) :=
  let i := 700 in
  let cur_2 :=
    bezier_circle beampower default_spot default_speed default_midpoint 700 in
  let counter := 2 in
  heat_loop fuel i cur_2 counter.

(** Circle number [k] of the heat file, counted from 1. *)
Definition heat_ring (k : nat) : list Curve :=
  bezier_circle default_power default_spot
                (10000000 - 77778 * Z.of_nat k) default_midpoint
                (700 * Z.of_nat k).

End Heat.

End HeatFile.

(** * The attribute lists of [simple_input.py] *)

Module SimpleInput.

(** The update of one attribute in [prepare_build]:
    [if len(attr) == 1 and wanted_len != 1: attr = attr * wanted_len]. *)
Definition broadcast {A} (wanted_len : nat) (attr : list A) : list A :=
  if (List.length attr =? 1)%nat && negb (wanted_len =? 1)%nat
  then List.concat (repeat attr wanted_len)
  else attr.

End SimpleInput.


(** * Properties of the build processor *)

Import Controller.

Section ControllerProps.

Context {W : Type}.
Variable mach : Machine W.
Variable tostring : Q -> string.

Lemma insert_all_map (f : Pattern -> Pattern) (src acc : list Pattern) :
  insert_all f src acc = (acc ++ map f src)%list.
Proof.
  unfold insert_all. revert acc.
  induction src as [|obp src IH]; intro acc; simpl.
  - now rewrite app_nil_r.
  - rewrite IH, <- app_assoc. reflexivity.
Qed.

Lemma lua_add_in_range (a b : Z) :
  in_int64 (a + b) -> lua_add a b = a + b.
Proof.
  unfold in_int64, int64_min, int64_max, lua_add. intro H.
  rewrite Z.mod_small by lia. lia.
Qed.

Lemma lua_add_is_int64 (a b : Z) : in_int64 (lua_add a b).
Proof.
  unfold in_int64, int64_min, int64_max, lua_add.
  pose proof (Z.mod_pos_bound (a + b + 9223372036854775808)
                18446744073709551616 eq_refl). lia.
Qed.

Lemma exposures_app (t1 t2 : list Event) :
  exposures (t1 ++ t2) = (exposures t1 + exposures t2)%nat.
Proof.
  unfold exposures. now rewrite filter_app, length_app.
Qed.

Lemma submissions_app (t1 t2 : list Event) :
  submissions (t1 ++ t2) = (submissions t1 ++ submissions t2)%list.
Proof.
  induction t1 as [|e t1 IH]; simpl; [reflexivity|].
  destruct (groups_of e); simpl; now rewrite IH.
Qed.

Lemma recovery_flags_app (t1 t2 : list Event) :
  recovery_flags (t1 ++ t2) = (recovery_flags t1 ++ recovery_flags t2)%list.
Proof.
  induction t1 as [|e t1 IH]; simpl; [reflexivity|].
  destruct e; simpl; now rewrite IH.
Qed.

(** ** Running the monad step by step *)

Lemma after_nil {A} (r : Run W A) : after [] r = r.
Proof. now destruct r. Qed.

Lemma after_after {A} (t1 t2 : list Event) (r : Run W A) :
  after t1 (after t2 r) = after (t1 ++ t2) r.
Proof. unfold after; simpl. now rewrite app_assoc. Qed.

Lemma res_after {A} (t : list Event) (r : Run W A) : res (after t r) = res r.
Proof. reflexivity. Qed.

Lemma final_after {A} (t : list Event) (r : Run W A) :
  final (after t r) = final r.
Proof. reflexivity. Qed.

Lemma emitted_after {A} (t : list Event) (r : Run W A) :
  emitted (after t r) = (t ++ emitted r)%list.
Proof. reflexivity. Qed.

Lemma bind_ok {A B} (m : M W A) (f : A -> M W B) (s : State W) (a : A) :
  res (m s) = Ok a ->
  bind m f s = after (emitted (m s)) (f a (final (m s))).
Proof. intro H. unfold bind. now rewrite H. Qed.

Lemma bind_raise {A B} (m : M W A) (f : A -> M W B) (s : State W) msg :
  res (m s) = Raise msg ->
  bind m f s = mkRun (Raise msg) (final (m s)) (emitted (m s)).
Proof. intro H. unfold bind. now rewrite H. Qed.

Lemma bind_diverge {A B} (m : M W A) (f : A -> M W B) (s : State W) :
  res (m s) = Diverge ->
  bind m f s = mkRun Diverge (final (m s)) (emitted (m s)).
Proof. intro H. unfold bind. now rewrite H. Qed.

Lemma bind_bind {A B C} (m : M W A) (f : A -> M W B) (g : B -> M W C)
    (s : State W) :
  bind (bind m f) g s = bind m (fun a => bind (f a) g) s.
Proof.
  unfold bind.
  destruct (m s) as [[a|msg|] s1 t1]; cbn [res final emitted after];
    try reflexivity.
  destruct (f a s1) as [[b|msg|] s2 t2]; cbn [res final emitted after];
    try reflexivity.
  unfold after; cbn [res final emitted]. now rewrite app_assoc.
Qed.

Lemma bind_ret {A B} (a : A) (f : A -> M W B) (s : State W) :
  bind (ret a) f s = f a s.
Proof. unfold bind, ret; cbn. apply after_nil. Qed.

Lemma bind_error {A B} (msg : string) (f : A -> M W B) (s : State W) :
  bind (error msg) f s = mkRun (Raise msg) s [].
Proof. reflexivity. Qed.

Lemma bind_diverge' {A B} (f : A -> M W B) (s : State W) :
  bind diverge f s = mkRun Diverge s [].
Proof. reflexivity. Qed.

Lemma bind_call {A B} (h : W -> A * W) (ev : A -> Event) (f : A -> M W B)
    (s : State W) :
  bind (call h ev) f s =
    after [ev (fst (h (world s)))]
          (f (fst (h (world s)))
             (mkState (snd (h (world s))) (newPowderLayer s))).
Proof. reflexivity. Qed.

Lemma bind_call_ {B} (h : W -> W) (ev : Event) (f : unit -> M W B)
    (s : State W) :
  bind (call_ h ev) f s =
    after [ev] (f tt (mkState (h (world s)) (newPowderLayer s))).
Proof. reflexivity. Qed.

Lemma bind_set_newPowderLayer {B} (b : bool) (f : unit -> M W B)
    (s : State W) :
  bind (set_newPowderLayer b) f s = f tt (mkState (world s) (Some b)).
Proof. unfold bind, set_newPowderLayer; cbn. apply after_nil. Qed.

Lemma bind_get_newPowderLayer {B} (f : option bool -> M W B) (s : State W) :
  bind get_newPowderLayer f s = f (newPowderLayer s) s.
Proof. unfold bind, get_newPowderLayer; cbn. apply after_nil. Qed.

(** The trace of a pass up to the submission: the two parameter reads, the
    announcement, and the submission of the four groups. *)
Lemma submit_run (index : Z) (layer : Layer) (retryCount : Z) (s : State W) :
  let cur := pre_heat_read mach s in
  let hbr := post_heat_read mach s in
  exists err w',
    submit mach index layer retryCount s =
      mkRun (Ok err) (mkState w' (newPowderLayer s))
        [EvGetField jump_safe_input "repetitions" cur;
         EvPrint ("Jump safe reps: " ++ show cur ++ "");
         EvGetField heat_balance_input "repetitions" hbr;
         EvPrint ("Heat balance reps: " ++ show hbr ++ "");
         EvPrint (exposing_message index retryCount);
         EvPublishField "BuildStatus" "Trace" "Activity" "current_activity"
                        (VText (exposing_message index retryCount));
         EvExposures (build_jumpSafePatterns layer cur)
                     (build_spatterSafePatterns layer)
                     (build_meltPatterns layer)
                     (build_heatBalancePatterns layer hbr) err].
Proof.
  intros cur hbr. unfold submit.
  do 2 eexists. unfold bind, get_field, print, log, publish_field,
    start_process_step_exposures, call, call_. cbn [res final emitted world newPowderLayer app fst snd].
  reflexivity.
Qed.

Lemma bind_log {B} (message : string) (k : unit -> M W B) (s : State W) :
  bind (log mach message) k s =
    after (activity message)
          (k tt (mkState (logged mach message (world s)) (newPowderLayer s))).
Proof.
  unfold log, print, publish_field.
  rewrite bind_bind, bind_call_. cbv beta.
  rewrite bind_call_. cbv beta. now rewrite after_after.
Qed.

Lemma logfatal_run {A} (message : string) (s : State W) :
  let m := "Build Error: " ++ message in
  let cleared := m_clear_exposure_queue mach (logged mach m (world s)) in
  logfatal (A:=A) mach message s =
    mkRun (Raise m) (mkState (snd cleared) (newPowderLayer s))
          (fatal_events message (fst cleared)).
Proof.
  unfold logfatal. rewrite bind_log. unfold clear_exposure_queue.
  rewrite bind_call. reflexivity.
Qed.

Lemma bind_logfatal {A B} (message : string) (k : A -> M W B) (s : State W) :
  let m := "Build Error: " ++ message in
  let cleared := m_clear_exposure_queue mach (logged mach m (world s)) in
  bind (logfatal mach message) k s =
    mkRun (Raise m) (mkState (snd cleared) (newPowderLayer s))
          (fatal_events message (fst cleared)).
Proof.
  cbv zeta. rewrite (bind_raise _ _ _ ("Build Error: " ++ message));
    rewrite logfatal_run; reflexivity.
Qed.

End ControllerProps.

(** One step of a run: the first host call of a sequence moves into the
    trace. *)
Ltac run_step :=
  first [ rewrite bind_bind | rewrite bind_ret | rewrite bind_call
        | rewrite bind_call_ | rewrite bind_error
        | rewrite bind_set_newPowderLayer | rewrite bind_get_newPowderLayer
        | rewrite bind_log | rewrite bind_logfatal | rewrite logfatal_run
        | rewrite after_after ];
  cbv beta zeta.

Ltac split_if :=
  match goal with
  | |- context [if (?a =? ?b) then _ else _] => destruct (Z.eqb_spec a b)
  | |- context [if (?a <? ?b) then _ else _] => destruct (Z.ltb_spec a b)
  | |- context [if ?c then _ else _] => destruct c eqn:?
  | |- context [when ?c _] => destruct c eqn:?
  end.

Ltac exec :=
  repeat first
    [ run_step
    | progress cbn [negb when fst snd res final emitted after world
                    newPowderLayer]
    | split_if ].

Ltac exec_after_exposure :=
  unfold after_exposure, classify, clear_exposure_queue,
    restart_after_arc_trip, maxRetryCount;
  exec; unfold ret;
  cbn [negb when fst snd res final emitted after world newPowderLayer].

Section AttemptProps.

Context {W : Type}.
Variable mach : Machine W.

(** A pass is its submission followed by the handling of the answer. *)
Lemma attempt_run (index : Z) (layer : Layer) (layerDone : bool)
    (retryCount : Z) (s : State W) (err_id : Z) :
  res (submit mach index layer retryCount s) = Ok err_id ->
  attempt mach index layer layerDone retryCount s =
    after (emitted (submit mach index layer retryCount s))
          (after_exposure mach err_id layerDone retryCount
             (final (submit mach index layer retryCount s))).
Proof.
  intro H. unfold attempt.
  exact (bind_ok (submit mach index layer retryCount)
                 (fun e => after_exposure mach e layerDone retryCount)
                 s err_id H).
Qed.

Lemma submit_ok (index : Z) (layer : Layer) (retryCount : Z) (s : State W) :
  exists err_id, res (submit mach index layer retryCount s) = Ok err_id.
Proof.
  destruct (submit_run mach index layer retryCount s) as (err & w' & E).
  exists err. now rewrite E.
Qed.

(** Nothing is submitted after the answer of the machine. *)
Lemma after_exposure_submits_nothing (err_id : Z) (layerDone : bool)
    (retryCount : Z) (s : State W) :
  submissions (emitted (after_exposure mach err_id layerDone retryCount s)) = [].
Proof. exec_after_exposure; reflexivity. Qed.


(** A pass submits once: the groups built from the two parameter values it
    read. *)
Lemma attempt_submissions (index : Z) (layer : Layer) (layerDone : bool)
    (retryCount : Z) (s : State W) :
  submissions (emitted (attempt mach index layer layerDone retryCount s)) =
    [(build_jumpSafePatterns layer (pre_heat_read mach s),
      build_spatterSafePatterns layer,
      build_meltPatterns layer,
      build_heatBalancePatterns layer (post_heat_read mach s))].
Proof.
  destruct (submit_run mach index layer retryCount s) as (err & w' & E).
  rewrite (attempt_run _ _ _ _ _ err) by now rewrite E.
  rewrite emitted_after, submissions_app, after_exposure_submits_nothing, E.
  reflexivity.
Qed.

Lemma submit_recovery_flags (index : Z) (layer : Layer) (retryCount : Z)
    (s : State W) :
  recovery_flags (emitted (submit mach index layer retryCount s)) = [].
Proof.
  destruct (submit_run mach index layer retryCount s) as (err & w' & E).
  now rewrite E.
Qed.

(** C3. In a pass whose submission the machine answers with a fault code
    1, 2, 3 or 4, [machine.restart_after_arc_trip] is called once, and its
    fresh-powder argument is [true] exactly for code 3 (the melt trip); it
    is [false] for the codes 1, 2 and 4. *)
Theorem C3_fresh_powder_exactly_for_melt_trip
    (index : Z) (layer : Layer) (layerDone : bool) (retryCount : Z)
    (s : State W) (err_id : Z) :
  res (submit mach index layer retryCount s) = Ok err_id ->
  1 <= err_id <= 4 ->
  recovery_flags (emitted (attempt mach index layer layerDone retryCount s)) =
    [Some (err_id =? 3)].
Proof.
  intros Hsub Hrange.
  rewrite (attempt_run _ _ _ _ _ _ Hsub).
  rewrite emitted_after, recovery_flags_app, submit_recovery_flags.
  cbn [app].
  generalize (final (submit mach index layer retryCount s)) as s1.
  intro s1. exec_after_exposure; try lia; subst; reflexivity.
Qed.

(** C4. In every pass the jumpSafe group that is submitted has, for each
    configured jumpSafe pattern, Lua's sum of the value read from the topic
    PreHeatRepetitions in this pass and the pattern's own repetitions: the
    sum wraps around at 64 bits and is within the range of a Lua integer.
    Whenever the value plus the repetitions is within that range for each
    pattern, it is this number that is submitted; with the value 7 and a
    pattern of 2 repetitions, 9 is submitted.  With the largest integer as
    the value, the same pattern is submitted with -9223372036854775807
    repetitions. *)
Theorem C4_jump_safe_repetitions_are_the_sum
    (index : Z) (layer : Layer) (layerDone : bool) (retryCount : Z)
    (s : State W) :
  let cur := fst (m_get_field mach jump_safe_input "repetitions" (world s)) in
  (exists ss ml hb,
     submissions (emitted (attempt mach index layer layerDone retryCount s)) =
       [(match jumpSafe layer with
         | Some l =>
             map (fun obp =>
                    mkPattern (file obp) (lua_add cur (repetitions obp))) l
         | None => []
         end, ss, ml, hb)]) /\
  (forall obp, in_int64 (lua_add cur (repetitions obp))) /\
  (forall l,
     jumpSafe layer = Some l ->
     (forall obp, In obp l -> in_int64 (cur + repetitions obp)) ->
     exists ss ml hb,
       submissions
         (emitted (attempt mach index layer layerDone retryCount s)) =
         [(map (fun obp => mkPattern (file obp) (cur + repetitions obp)) l,
           ss, ml, hb)]) /\
  (exists ss ml hb,
     submissions
       (emitted (attempt sim 1 plain_layer false 0
                         (start_of (healthy [] 7 0)))) =
       [([mkPattern "obp/preheat.obp" 9], ss, ml, hb)]) /\
  (exists ss ml hb,
     submissions
       (emitted (attempt sim 1 plain_layer false 0
                         (start_of (healthy [] int64_max 0)))) =
       [([mkPattern "obp/preheat.obp" (-9223372036854775807)], ss, ml, hb)]).
Proof.
  intro cur. split; [|split; [|split; [|split]]].
  - do 3 eexists. rewrite attempt_submissions. unfold build_jumpSafePatterns.
    fold cur. unfold pre_heat_read.
    destruct (jumpSafe layer) as [l|]; [|reflexivity].
    now rewrite insert_all_map.
  - intro obp. apply lua_add_is_int64.
  - intros l Hl Hrange. do 3 eexists. rewrite attempt_submissions.
    unfold build_jumpSafePatterns, pre_heat_read. fold cur. rewrite Hl.
    rewrite insert_all_map. cbn [app]. f_equal. f_equal. f_equal. f_equal.
    apply map_ext_in. intros obp Hin.
    now rewrite (lua_add_in_range _ _ (Hrange obp Hin)).
  - do 3 eexists. vm_compute. reflexivity.
  - do 3 eexists. vm_compute. reflexivity.
Qed.

(** C5. With PreHeatRepetitions at 7 and a jumpSafe pattern configured with
    2 repetitions, the pass submits 9 repetitions: the parameter is added to
    the configured value, it does not replace it. *)
Theorem C5_jump_safe_value_is_not_replaced :
  submissions
    (emitted (attempt sim 1 plain_layer false 0 (start_of (healthy [] 7 0)))) =
    [([mkPattern "obp/preheat.obp" 9], [],
      [mkPattern "obp/layer1.obp" 1], [mkPattern "obp/postheat.obp" 5])] /\
  mkPattern "obp/preheat.obp" 9 <> mkPattern "obp/preheat.obp" 7.
Proof.
  split; [vm_compute; reflexivity | discriminate].
Qed.

(** C6. The spatterSafe group that a pass submits is empty, whatever the
    layer configures: for a layer with one configured spatterSafe pattern
    the submitted spatterSafe group has no pattern. *)
Theorem C6_spatter_safe_group_is_always_empty
    (index : Z) (layer : Layer) (layerDone : bool) (retryCount : Z)
    (s : State W) :
  (exists js ml hb,
     submissions (emitted (attempt mach index layer layerDone retryCount s)) =
       [(js, [], ml, hb)]) /\
  spatterSafe spatter_layer = Some [mkPattern "obp/spatter.obp" 3] /\
  (exists js ml hb,
     submissions
       (emitted (attempt sim 1 spatter_layer false 0
                         (start_of (healthy [] 0 0)))) =
       [(js, [], ml, hb)]).
Proof.
  split; [|split].
  - do 3 eexists. rewrite attempt_submissions. reflexivity.
  - reflexivity.
  - do 3 eexists. vm_compute. reflexivity.
Qed.

Lemma copy_patterns (l : list Pattern) :
  map (fun obp => mkPattern (file obp) (repetitions obp)) l = l.
Proof.
  induction l as [|[f r] l IH]; simpl; [reflexivity|now rewrite IH].
Qed.

End AttemptProps.

Ltac close_case :=
  repeat split;
  first [ lia | reflexivity | discriminate
        | do 2 eexists; reflexivity
        | left; lia | right; lia ].

Section RetryProps.

Context {W : Type}.
Variable mach : Machine W.

(** How the handling of an answer ends, when the counter is within its
    bound at the start of the pass. *)
Lemma after_exposure_cases (err_id retryCount : Z) (s : State W) :
  retryCount <= 10 ->
  let r := after_exposure mach err_id false retryCount s in
  exposures (emitted r) = 0%nat /\
  match res r with
  | Ok (done, rc') =>
      (done = true /\ rc' = retryCount /\ (err_id = 0 \/ err_id = 4)) \/
      (done = false /\ rc' = retryCount + 1 /\ retryCount + 1 <= 10 /\
       err_id <> 0 /\ err_id <> 4)
  | Raise msg =>
      (msg = "Build Error: Unable to recover from arc trip" /\
       err_id <> 0 /\
       exists pre answer,
         emitted r =
           (pre ++ fatal_events "Unable to recover from arc trip" answer)%list)
      \/
      (msg = "Build Error: Maximum retry count exceeded!" /\
       retryCount = 10 /\ err_id <> 0 /\ err_id <> 4 /\
       exists pre answer,
         emitted r =
           (pre ++ fatal_events "Maximum retry count exceeded!" answer)%list)
  | Diverge => False
  end.
Proof.
  intros Hrc r. subst r.
  exec_after_exposure.
  all: split; [reflexivity|].
  all: try lia.
  all: first [ solve [left; close_case] | solve [right; close_case] ].
Qed.

Lemma submit_exposures (index : Z) (layer : Layer) (retryCount : Z)
    (s : State W) :
  exposures (emitted (submit mach index layer retryCount s)) = 1%nat.
Proof.
  destruct (submit_run mach index layer retryCount s) as (err & w' & E).
  now rewrite E.
Qed.

(** The same for a whole pass. *)
Lemma attempt_cases (index : Z) (layer : Layer) (retryCount : Z)
    (s : State W) :
  retryCount <= 10 ->
  let r := attempt mach index layer false retryCount s in
  exposures (emitted r) = 1%nat /\
  match res r with
  | Ok (done, rc') =>
      (done = true /\ rc' = retryCount) \/
      (done = false /\ rc' = retryCount + 1 /\ retryCount + 1 <= 10)
  | Raise msg =>
      msg = "Build Error: Unable to recover from arc trip" \/
      (msg = "Build Error: Maximum retry count exceeded!" /\
       retryCount = 10 /\
       exists pre answer,
         emitted r =
           (pre ++ fatal_events "Maximum retry count exceeded!" answer)%list)
  | Diverge => False
  end.
Proof.
  intros Hrc r. subst r.
  destruct (submit_ok mach index layer retryCount s) as (err & Hsub).
  rewrite (attempt_run _ _ _ _ _ _ _ Hsub).
  rewrite emitted_after, exposures_app, submit_exposures, res_after.
  pose proof (after_exposure_cases err retryCount
                (final (submit mach index layer retryCount s)) Hrc) as H.
  cbv zeta in H. destruct H as [H0 H]. rewrite H0. split; [reflexivity|].
  destruct (res (after_exposure mach err false retryCount
                   (final (submit mach index layer retryCount s))))
    as [[done rc']|msg|]; [| |exact H].
  - destruct H as [(?&?&?)|(?&?&?&?)]; [left|right]; auto.
  - destruct H as [(?&?&?)|(?&?&?&?&pre&ans&E)]; [left|right]; auto.
    repeat split; auto.
    exists (emitted (submit mach index layer retryCount s) ++ pre)%list, ans.
    rewrite E. now rewrite app_assoc.
Qed.

Lemma expose_loop_done (fuel : nat) (index : Z) (layer : Layer)
    (retryCount : Z) (s : State W) :
  expose_loop mach fuel index layer true retryCount s = mkRun (Ok tt) s [].
Proof. destruct fuel; reflexivity. Qed.

Lemma expose_loop_step (fuel : nat) (index : Z) (layer : Layer)
    (retryCount : Z) (s : State W) :
  expose_loop mach (S fuel) index layer false retryCount s =
    bind (attempt mach index layer false retryCount)
         (fun st => expose_loop mach fuel index layer (fst st) (snd st)) s.
Proof. reflexivity. Qed.





End RetryProps.

Section CounterProps.

Context {W : Type}.
Variable mach : Machine W.

Lemma announcements_app (t1 t2 : list Event) :
  announcements (t1 ++ t2) = (announcements t1 ++ announcements t2)%list.
Proof. apply filter_app. Qed.

Lemma exposing_is_announcement (index rc : Z) :
  is_announcement (EvPrint (exposing_message index rc)) = true.
Proof. reflexivity. Qed.

Lemma submit_announcements (index : Z) (layer : Layer) (retryCount : Z)
    (s : State W) :
  announcements (emitted (submit mach index layer retryCount s)) =
    [EvPrint (exposing_message index retryCount)].
Proof.
  destruct (submit_run mach index layer retryCount s) as (err & w' & E).
  rewrite E. reflexivity.
Qed.

Lemma after_exposure_announcements (err_id : Z) (layerDone : bool)
    (retryCount : Z) (s : State W) :
  announcements (emitted (after_exposure mach err_id layerDone retryCount s)) = [].
Proof. exec_after_exposure; reflexivity. Qed.


Lemma wait_loop_quiet fuel pred i d : quiet pred -> quiet (wait_loop mach fuel pred i d).
Proof.
  intros Hp. induction fuel as [|fuel IH]; intro s; [reflexivity|].
  cbn [wait_loop].
  destruct (res (pred s)) as [p| |] eqn:E.
  - rewrite (bind_ok _ _ _ _ E). rewrite emitted_after, announcements_app, Hp.
    destruct p; [reflexivity|]. unfold sleep, os_time. exec.
    all: rewrite ?emitted_after, ?announcements_app, ?IH; reflexivity.
  - rewrite (bind_raise _ _ _ _ E). apply Hp.
  - rewrite (bind_diverge _ _ _ E). apply Hp.
Qed.


Lemma wait_quiet fuel pred timeout settings :
  quiet pred -> quiet (wait mach fuel pred timeout settings).
Proof.
  intros Hp s. unfold wait, os_time. rewrite bind_call. cbv beta.
  rewrite emitted_after, announcements_app, wait_loop_quiet by exact Hp.
  reflexivity.
Qed.

Lemma hv_is_low_quiet : quiet (hv_is_low mach).
Proof. intro s. unfold hv_is_low, get_hv_current. exec. reflexivity. Qed.

Lemma wait_for_beam_power_low_quiet fuel :
  quiet (wait_for_beam_power_low mach fuel).
Proof.
  intro s. unfold wait_for_beam_power_low.
  pose proof (wait_quiet fuel (hv_is_low mach) 30 None hv_is_low_quiet s) as Hw.
  destruct (res (wait mach fuel (hv_is_low mach) 30 None s)) as [low| |] eqn:E.
  - rewrite (bind_ok _ _ _ _ E), emitted_after, announcements_app, Hw.
    destruct low; cbn [negb when]; [reflexivity|].
    unfold clear_exposure_queue. exec. reflexivity.
  - now rewrite (bind_raise _ _ _ _ E).
  - now rewrite (bind_diverge _ _ _ E).
Qed.

Lemma layer_block_cons index first n :
  layer_block index first (S n) =
    EvPrint (exposing_message index first) :: layer_block index (first + 1) n.
Proof.
  unfold layer_block. cbn [seq map]. rewrite Z.add_0_r. f_equal.
  rewrite <- seq_shift, map_map. apply map_ext. intro k.
  do 2 f_equal. lia.
Qed.

Lemma attempt_announcements index layer ld rc s :
  announcements (emitted (attempt mach index layer ld rc s)) =
    [EvPrint (exposing_message index rc)].
Proof.
  destruct (submit_ok mach index layer rc s) as (err & Hsub).
  rewrite (attempt_run _ _ _ _ _ _ _ Hsub).
  now rewrite emitted_after, announcements_app, submit_announcements,
    after_exposure_announcements.
Qed.

(** Within the loop of a layer the announced counters go up one by one. *)
Lemma expose_loop_announcements index layer fuel :
  forall rc s, 0 <= rc <= 10 ->
    let r := expose_loop mach fuel index layer false rc s in
    exists n, announcements (emitted r) = layer_block index rc n /\
              (n <= Z.to_nat (11 - rc))%nat /\
              (res r = Ok tt -> (1 <= n)%nat).
Proof.
  induction fuel as [|fuel IH]; intros rc s Hrc; cbv zeta.
  - exists 0%nat. repeat split; [lia|discriminate].
  - rewrite expose_loop_step.
    pose proof (attempt_cases mach index layer rc s (proj2 Hrc)) as H.
    cbv zeta in H. destruct H as [_ H].
    destruct (res (attempt mach index layer false rc s))
      as [[done rc']|msg|] eqn:Hres; [| |contradiction].
    + rewrite (bind_ok _ _ _ _ Hres). cbn [fst snd].
      rewrite res_after, emitted_after, announcements_app, attempt_announcements.
      destruct H as [[-> ->]|(-> & -> & Hle)].
      * rewrite expose_loop_done. exists 1%nat.
        rewrite layer_block_cons. repeat split; lia.
      * destruct (IH (rc + 1) (final (attempt mach index layer false rc s))
                    ltac:(lia)) as (n & E & Hn & Hok).
        exists (S n). rewrite layer_block_cons, E.
        repeat split; lia.
    + rewrite (bind_raise _ _ _ _ Hres). cbn [res emitted].
      rewrite attempt_announcements. exists 1%nat.
      rewrite layer_block_cons. repeat split; lia.
Qed.


Ltac step_through m :=
  match goal with
  | |- context [bind m ?k ?s] =>
      let E := fresh "E" in
      destruct (res (m s)) eqn:E;
      [ rewrite (bind_ok m k s _ E)
      | rewrite (bind_raise m k s _ E)
      | rewrite (bind_diverge m k s E) ]
  end.

Ltac no_announcements :=
  rewrite ?emitted_after, ?announcements_app;
  cbn [emitted];
  rewrite ?announcements_app;
  rewrite ?wait_for_beam_power_low_quiet;
  repeat match goal with
         | |- context [announcements (?e :: ?l)] =>
             change (announcements (e :: l)) with (@nil Event)
         end;
  cbn [app].

Lemma process_layer_announcements fuel num_layers feed index layer s :
  let r := process_layer mach fuel num_layers feed index layer s in
  exists n, announcements (emitted r) = layer_block index 0 n /\
            (n <= 11)%nat /\ (res r = Ok tt -> (1 <= n)%nat).
Proof.
  cbv zeta. unfold process_layer, print, publish_layers, recoat_cycle,
    beam_is_on, restartHV.
  exec. step_through (wait_for_beam_power_low mach fuel).
  - exec.
    all: try (exists 0%nat; no_announcements; unfold fatal_events, activity; no_announcements;
         repeat split; [lia|discriminate]).
    all: match goal with
      | |- context [expose_loop _ _ _ _ false 0 ?s1] =>
        destruct (expose_loop_announcements index layer fuel 0 s1 ltac:(lia))
          as (n & E1 & Hn & Hok)
      end.
    all: exists n; rewrite ?res_after; no_announcements; unfold activity; no_announcements.
    all: rewrite E1; repeat split; auto; lia.
  - exists 0%nat. no_announcements. repeat split; [lia|discriminate].
  - exists 0%nat. no_announcements. repeat split; [lia|discriminate].
Qed.

Lemma process_layers_announcements fuel num_layers feed ls :
  forall index s,
  let r := process_layers mach fuel num_layers feed index ls s in
  exists ns, announcements (emitted r) = blocks index ns /\
             (List.length ns <= List.length ls)%nat /\
             Forall (fun n => (n <= 11)%nat) ns /\
             (res r = Ok tt ->
              List.length ns = List.length ls /\
              Forall (fun n => (1 <= n)%nat) ns).
Proof.
  induction ls as [|layer rest IH]; intros index s; cbv zeta.
  - exists []. cbn. repeat split; auto.
  - cbn [process_layers].
    destruct (process_layer_announcements fuel num_layers feed index layer s)
      as (n & E & Hn & Hok).
    destruct (res (process_layer mach fuel num_layers feed index layer s))
      as [[]| |] eqn:Er.
    + rewrite (bind_ok _ _ _ _ Er), res_after, emitted_after, announcements_app, E.
      destruct (IH (index + 1) (final (process_layer mach fuel num_layers feed index layer s)))
        as (ns & E' & Hl & Hall & Hok').
      exists (n :: ns). cbn [blocks List.length]. rewrite E'.
      repeat split; auto; try lia.
      * intros. destruct (Hok' H). lia.
      * intros. destruct (Hok' H). constructor; auto.
    + rewrite (bind_raise _ _ _ _ Er). cbn [res emitted].
      exists [n]. cbn [blocks List.length]. rewrite app_nil_r.
      repeat split; auto; try lia; discriminate.
    + rewrite (bind_diverge _ _ _ Er). cbn [res emitted].
      exists [n]. cbn [blocks List.length]. rewrite app_nil_r.
      repeat split; auto; try lia; discriminate.
Qed.

(** The pass that is answered with code 4. *)
Lemma heat_balance_answer (rc : Z) (s : State W) :
  rc <= 10 ->
  let r := after_exposure mach 4 false rc s in
  exists cleared recovered rest,
    emitted r =
      (activity "Arc trip during Heat Balance exposure" ++
       [EvClearExposureQueue cleared;
        EvRestartAfterArcTrip (Some false) 60 recovered] ++ rest)%list /\
    (recovered = true -> rest = [] /\ res r = Ok (true, rc)) /\
    (recovered = false ->
     res r = Raise "Build Error: Unable to recover from arc trip").
Proof.
  intros Hrc r. subst r.
  exec_after_exposure; try lia.
  all: do 3 eexists; split;
    [rewrite <- ?app_assoc; cbn [app]; reflexivity|].
  all: split; intro Hrec;
    match goal with
    | H : negb _ = _ |- _ => rewrite Hrec in H; try discriminate H
    end.
  all: try reflexivity.
  split; reflexivity.
Qed.

(** C2. A pass that the machine answers with code 4 (the heat-balance
    trip) publishes the trip, clears the queue and calls the recovery with
    the fresh-powder flag [false]; when the recovery succeeds the pass ends
    with the layer done and the counter as it was, and the loop of the
    layer ends with it.  In any pass the counter stays exactly when the
    layer is done (answer 0 or 4) and goes up by one otherwise; over the
    layers the announced counters start at 0 in each layer and go up one
    by one within it. *)
Theorem C2_heat_balance_trip_completes_the_layer
    (fuel : nat) (index : Z) (layer : Layer) (retryCount : Z) (s : State W) :
  retryCount <= 10 ->
  res (submit mach index layer retryCount s) = Ok 4 ->
  let a := attempt mach index layer false retryCount s in
  (exists cleared recovered rest,
     emitted a =
       (emitted (submit mach index layer retryCount s) ++
        activity "Arc trip during Heat Balance exposure" ++
        [EvClearExposureQueue cleared;
         EvRestartAfterArcTrip (Some false) 60 recovered] ++ rest)%list /\
     (recovered = true ->
      rest = [] /\ res a = Ok (true, retryCount) /\
      expose_loop mach (S fuel) index layer false retryCount s =
        mkRun (Ok tt) (final a) (emitted a)) /\
     (recovered = false ->
      res a = Raise "Build Error: Unable to recover from arc trip")) /\
  (forall (rc : Z) (s' : State W) (err_id : Z) (done : bool) (rc' : Z),
     rc <= 10 ->
     res (submit mach index layer rc s') = Ok err_id ->
     res (attempt mach index layer false rc s') = Ok (done, rc') ->
     (done = true /\ rc' = rc /\ (err_id = 0 \/ err_id = 4)) \/
     (done = false /\ rc' = rc + 1 /\ err_id <> 0 /\ err_id <> 4)) /\
  (forall (num_layers : Z) (feed : LayerFeed) (first : Z) (ls : list Layer)
          (s0 : State W),
     let r := process_layers mach fuel num_layers feed first ls s0 in
     exists ns,
       announcements (emitted r) = blocks first ns /\
       (List.length ns <= List.length ls)%nat /\
       Forall (fun n => (n <= 11)%nat) ns /\
       (res r = Ok tt ->
        List.length ns = List.length ls /\
        Forall (fun n => (1 <= n)%nat) ns)).
Proof.
  intros Hrc Hsub a. split; [|split].
  - assert (Ha : a = after (emitted (submit mach index layer retryCount s))
                       (after_exposure mach 4 false retryCount
                          (final (submit mach index layer retryCount s))))
      by apply (attempt_run _ _ _ _ _ _ _ Hsub).
    destruct (heat_balance_answer retryCount
                (final (submit mach index layer retryCount s)) Hrc)
      as (cleared & recovered & rest & E & Hyes & Hno).
    exists cleared, recovered, rest. split; [|split].
    + rewrite Ha, emitted_after, E. reflexivity.
    + intro Hrec. destruct (Hyes Hrec) as [-> Hres].
      assert (Hres' : res a = Ok (true, retryCount))
        by (rewrite Ha, res_after; exact Hres).
      repeat split; [exact Hres'|].
      rewrite expose_loop_step.
      rewrite (bind_ok _ _ _ _ Hres'). cbn [fst snd].
      rewrite expose_loop_done. unfold after; cbn [res final emitted].
      now rewrite app_nil_r.
    + intro Hrec. rewrite Ha, res_after. exact (Hno Hrec).
  - intros rc s' err done rc' Hle Hs Hr.
    rewrite (attempt_run _ _ _ _ _ _ _ Hs), res_after in Hr.
    pose proof (after_exposure_cases mach err rc
                  (final (submit mach index layer rc s')) Hle) as H.
    cbv zeta in H. destruct H as [_ H]. rewrite Hr in H.
    destruct H as [(?&?&?)|(?&?&?&?&?)]; [left|right]; auto.
  - intros. apply process_layers_announcements.
Qed.

End CounterProps.

Section WaitProps.

Context {W : Type}.
Variable mach : Machine W.

Lemma wait_loop_step fuel (pred : M W bool) i d s :
  wait_loop mach (S fuel) pred i d s =
    bind pred (fun p =>
      if p then ret true
      else fun s1 =>
        after [EvSleep i; EvOsTime (woke_at mach i s1)]
          (if Qle_bool d (inject_Z (woke_at mach i s1)) then ret false (slept mach i s1)
           else wait_loop mach fuel pred i d (slept mach i s1))) s.
Proof.
  cbn [wait_loop]. unfold bind at 1 4.
  destruct (res (pred s)) as [[|]| |]; try reflexivity.
  f_equal. unfold sleep, os_time. rewrite bind_call_. cbv beta.
  rewrite bind_call. cbv beta. rewrite after_after. cbn [app world newPowderLayer].
  unfold woke_at, slept.
  destruct (Qle_bool d _); reflexivity.
Qed.

Lemma wait_loop_false fuel (pred : M W bool) i d :
  forall s,
    res (wait_loop mach fuel pred i d s) = Ok false ->
    exists pre now,
      emitted (wait_loop mach fuel pred i d s) =
        (pre ++ [EvSleep i; EvOsTime now])%list /\
      (d <= inject_Z now)%Q.
Proof.
  induction fuel as [|fuel IH]; intros s H; [discriminate|].
  rewrite wait_loop_step in *. unfold bind in *.
  destruct (res (pred s)) as [[|]| |] eqn:E; try discriminate.
  rewrite res_after, emitted_after in *.
  rewrite res_after in H. rewrite emitted_after.
  destruct (Qle_bool d (inject_Z (woke_at mach i (final (pred s))))) eqn:Q.
  - exists (emitted (pred s)), (woke_at mach i (final (pred s))).
    split; [reflexivity|]. now apply Qle_bool_iff.
  - destruct (IH _ H) as (pre & now & E' & Hd).
    exists (emitted (pred s) ++ [EvSleep i; EvOsTime (woke_at mach i (final (pred s)))] ++ pre)%list, now.
    rewrite E'. split; [|exact Hd]. now rewrite <- !app_assoc.
Qed.

Lemma wait_loop_true fuel (pred : M W bool) i d :
  forall s,
    res (wait_loop mach fuel pred i d s) = Ok true ->
    exists pre sk,
      res (pred sk) = Ok true /\
      emitted (wait_loop mach fuel pred i d s) = (pre ++ emitted (pred sk))%list /\
      final (wait_loop mach fuel pred i d s) = final (pred sk).
Proof.
  induction fuel as [|fuel IH]; intros s H; [discriminate|].
  rewrite wait_loop_step in *. unfold bind in *.
  destruct (res (pred s)) as [[|]| |] eqn:E; try discriminate.
  - exists [], s. cbn. rewrite app_nil_r. auto.
  - rewrite res_after, emitted_after, final_after in *.
    rewrite res_after in H. rewrite emitted_after, final_after.
    destruct (Qle_bool d (inject_Z (woke_at mach i (final (pred s))))) eqn:Q;
      [discriminate|].
    destruct (IH _ H) as (pre & sk & Hk & E' & Hf).
    exists (emitted (pred s) ++ [EvSleep i; EvOsTime (woke_at mach i (final (pred s)))] ++ pre)%list, sk.
    rewrite E', Hf. repeat split; auto. now rewrite <- !app_assoc.
Qed.

Lemma wait_loop_false_final fuel (pred : M W bool) i d :
  forall s,
    res (wait_loop mach fuel pred i d s) = Ok false ->
    exists sk,
      final (wait_loop mach fuel pred i d s) = slept mach i sk /\
      (d <= inject_Z (woke_at mach i sk))%Q.
Proof.
  induction fuel as [|fuel IH]; intros s H; [discriminate|].
  rewrite wait_loop_step in *. unfold bind in *.
  destruct (res (pred s)) as [[|]| |] eqn:E; try discriminate.
  rewrite res_after, final_after in *.
  rewrite res_after in H. rewrite final_after.
  destruct (Qle_bool d (inject_Z (woke_at mach i (final (pred s))))) eqn:Q.
  - exists (final (pred s)). split; [reflexivity|]. now apply Qle_bool_iff.
  - exact (IH _ H).
Qed.

End WaitProps.

Lemma sim_wait_loop_ends (pred : M SimWorld bool) (i d : Q) :
  (0 < i)%Q -> timeless pred ->
  forall (n : nat) (s : State SimWorld),
    (d + 1 - clock (world s) <= inject_Z (Z.of_nat n) * i)%Q ->
    res (wait_loop sim (S n) pred i d s) <> Diverge.
Proof.
  intros Hi Hp. induction n as [|n IH]; intros s Hn.
  all: rewrite wait_loop_step; unfold bind;
    destruct (Hp s) as [Hd Hc];
    destruct (res (pred s)) as [[|]| |] eqn:E;
    try discriminate; try contradiction.
  all: rewrite res_after.
  all: destruct (Qle_bool d (inject_Z (woke_at sim i (final (pred s))))) eqn:Q;
    [discriminate|].
  all: assert (Hw : (clock (world (slept sim i (final (pred s)))) ==
                     clock (world s) + i)%Q)
    by (change (clock (world (slept sim i (final (pred s)))))
          with (Qred (clock (world (final (pred s))) + i));
        etransitivity; [apply Qred_correct|]; rewrite Hc; reflexivity).
  - exfalso.
    assert (Hle : (d <= inject_Z (woke_at sim i (final (pred s))))%Q).
    { change (woke_at sim i (final (pred s)))
        with (Qfloor (Qred (clock (world (final (pred s))) + i))).
      pose proof (Qlt_floor (Qred (clock (world (final (pred s))) + i))) as Hf.
      pose proof (Qred_correct (clock (world (final (pred s))) + i)) as Hr.
      rewrite inject_Z_plus in Hf.
      change (inject_Z (Z.of_nat 0)) with 0%Q in Hn.
      change (inject_Z 1) with 1%Q in Hf. lra. }
    apply Qle_bool_iff in Hle. congruence.
  - apply IH. rewrite Hw. rewrite Nat2Z.inj_succ in Hn.
    unfold Z.succ in Hn. rewrite inject_Z_plus in Hn.
    change (inject_Z 1) with 1%Q in Hn. lra.
Qed.

Lemma sim_wait_ends (pred : M SimWorld bool) (timeout : Q)
    (settings : option Settings) (s : State SimWorld) :
  (0 < wait_interval settings)%Q -> timeless pred ->
  exists fuel0, forall fuel, (fuel0 <= fuel)%nat ->
    res (wait sim fuel pred timeout settings s) <> Diverge.
Proof.
  intros Hi Hp.
  set (i := wait_interval settings) in *.
  set (d := (inject_Z (Qfloor (clock (world s))) + timeout)%Q).
  set (x := ((d + 1 - clock (world s)) / i)%Q).
  exists (S (Z.to_nat (Qceiling x))).
  intros fuel Hfuel. destruct fuel as [|n]; [lia|].
  unfold wait, os_time. rewrite bind_call. cbv beta. rewrite res_after.
  apply (sim_wait_loop_ends pred i _ Hi Hp).
  change (d + 1 - clock (world s) <= inject_Z (Z.of_nat n) * i)%Q.
  assert (Hx : (x <= inject_Z (Z.of_nat n))%Q).
  { apply Qle_trans with (inject_Z (Qceiling x)); [apply Qle_ceiling|].
    rewrite <- Zle_Qle. lia. }
  assert (Hxi : (x * i == d + 1 - clock (world s))%Q).
  { unfold x. field. lra. }
  rewrite <- Hxi. apply Qmult_le_compat_r; [exact Hx|lra].
Qed.

Lemma sim_wait_false_elapsed (fuel : nat) (pred : M SimWorld bool)
    (timeout : Q) (settings : option Settings) (s : State SimWorld) :
  res (wait sim fuel pred timeout settings s) = Ok false ->
  (clock (world s) + timeout - 1 <
   clock (world (final (wait sim fuel pred timeout settings s))))%Q.
Proof.
  unfold wait, os_time. rewrite bind_call. cbv beta.
  rewrite res_after, final_after. intro H.
  destruct (wait_loop_false_final sim _ _ _ _ _ H) as (sk & Ef & Hd).
  rewrite Ef.
  change (clock (world (slept sim (wait_interval settings) sk)))
    with (Qred (clock (world sk) + wait_interval settings)).
  change (woke_at sim (wait_interval settings) sk)
    with (Qfloor (Qred (clock (world sk) + wait_interval settings))) in Hd.
  change (fst (m_os_time sim (world s))) with (Qfloor (clock (world s))) in Hd.
  pose proof (Qfloor_le (Qred (clock (world sk) + wait_interval settings)))
    as H1.
  pose proof (Qlt_floor (clock (world s))) as H2.
  rewrite inject_Z_plus in H2. change (inject_Z 1) with 1%Q in H2.
  lra.
Qed.

Lemma hv_is_low_timeless : timeless (hv_is_low sim).
Proof. intro s. split; [discriminate|reflexivity]. Qed.

Section WaitClaim.

Context {W : Type}.
Variable mach : Machine W.

(** C8, as amended.  The deadline of [wait] is counted in the whole seconds
    that [os.time] reads, not in the time that has passed.  [wait] reads
    the clock and evaluates the predicate at once; when it holds, [wait]
    answers [true] without a sleep.  An answer [true] comes right after an
    evaluation that held; an answer [false] comes right after a sleep of
    the interval (1 by default) and a clock reading that has reached the
    start reading plus the timeout, with no evaluation after that reading.
    On the simulated host, whose clock is the time that has passed, an
    answer [false] comes only when more than the timeout minus one second
    has passed since the call, and a predicate that takes no time makes
    [wait] end, for every positive interval.  With timeout 5 and interval
    1, a call at second 0 and a predicate that takes no time, a beam
    current that gets low at second 3 gives [true] at second 3, and one
    that never gets low gives [false] at second 5 after five
    evaluations. *)
Theorem C8_wait_polls_until_true_or_deadline :
  (forall (fuel : nat) (pred : M W bool) (timeout : Q)
          (settings : option Settings) (s : State W),
     let start := fst (m_os_time mach (world s)) in
     let s1 := mkState (snd (m_os_time mach (world s))) (newPowderLayer s) in
     res (pred s1) = Ok true ->
     wait mach (S fuel) pred timeout settings s =
       mkRun (Ok true) (final (pred s1)) (EvOsTime start :: emitted (pred s1)))
  /\
  (forall (fuel : nat) (pred : M W bool) (timeout : Q)
          (settings : option Settings) (s : State W),
     let r := wait mach fuel pred timeout settings s in
     (res r = Ok true ->
      exists pre sk,
        res (pred sk) = Ok true /\
        emitted r = (pre ++ emitted (pred sk))%list /\
        final r = final (pred sk)) /\
     (res r = Ok false ->
      exists start pre now,
        emitted r =
          (EvOsTime start :: pre ++
           [EvSleep (wait_interval settings); EvOsTime now])%list /\
        (inject_Z start + timeout <= inject_Z now)%Q))
  /\
  wait_interval None = 1%Q /\
  wait_interval (Some (mkSettings None)) = 1%Q /\
  (forall (pred : M SimWorld bool) (timeout : Q) (settings : option Settings)
          (s : State SimWorld),
     (0 < wait_interval settings)%Q -> timeless pred ->
     exists fuel0, forall fuel, (fuel0 <= fuel)%nat ->
       res (wait sim fuel pred timeout settings s) <> Diverge)
  /\
  (forall (fuel : nat) (pred : M SimWorld bool) (timeout : Q)
          (settings : option Settings) (s : State SimWorld),
     let r := wait sim fuel pred timeout settings s in
     res r = Ok false ->
     (clock (world s) + timeout - 1 < clock (world (final r)))%Q)
  /\
  (let r := wait sim 100 (hv_is_low sim) 5 None
                 (start_of (beam_low_from 0 3)) in
   res r = Ok true /\ clock (world (final r)) = 3%Q /\
   emitted r =
     [EvOsTime 0; EvGetHvCurrent (Some 5%Q);
      EvSleep 1; EvOsTime 1; EvGetHvCurrent (Some 5%Q);
      EvSleep 1; EvOsTime 2; EvGetHvCurrent (Some 5%Q);
      EvSleep 1; EvOsTime 3; EvGetHvCurrent (Some 0%Q)])
  /\
  (let r := wait sim 100 (hv_is_low sim) 5 None
                 (start_of (beam_low_from 0 1000)) in
   res r = Ok false /\ clock (world (final r)) = 5%Q /\
   emitted r =
     [EvOsTime 0; EvGetHvCurrent (Some 5%Q);
      EvSleep 1; EvOsTime 1; EvGetHvCurrent (Some 5%Q);
      EvSleep 1; EvOsTime 2; EvGetHvCurrent (Some 5%Q);
      EvSleep 1; EvOsTime 3; EvGetHvCurrent (Some 5%Q);
      EvSleep 1; EvOsTime 4; EvGetHvCurrent (Some 5%Q);
      EvSleep 1; EvOsTime 5]).
Proof.
  split; [|split; [|split; [|split; [|split; [|split; [|split]]]]]].
  - intros fuel pred timeout settings s start s1 Hp.
    unfold wait, os_time. rewrite bind_call. cbv beta. fold start s1.
    rewrite wait_loop_step, (bind_ok _ _ _ _ Hp).
    unfold after, ret; cbn [res final emitted app]. now rewrite app_nil_r.
  - intros fuel pred timeout settings s r. subst r.
    unfold wait, os_time. rewrite bind_call. cbv beta.
    rewrite res_after, emitted_after, final_after. split; intro H.
    + destruct (wait_loop_true _ _ _ _ _ _ H) as (pre & sk & Hk & E & Hf).
      exists (EvOsTime (fst (m_os_time mach (world s))) :: pre), sk.
      rewrite E, Hf. auto.
    + destruct (wait_loop_false _ _ _ _ _ _ H) as (pre & now & E & Hd).
      exists (fst (m_os_time mach (world s))), pre, now.
      rewrite E. auto.
  - reflexivity.
  - reflexivity.
  - intros. now apply sim_wait_ends.
  - intros fuel pred timeout settings s r H.
    exact (sim_wait_false_elapsed fuel pred timeout settings s H).
  - vm_compute. repeat split; reflexivity.
  - vm_compute. repeat split; reflexivity.
Qed.

End WaitClaim.

Section AbortProps.

Context {W : Type}.
Variable mach : Machine W.
Variable tostring : Q -> string.

Lemma aw_bind {A B} (m : M W A) (f : A -> M W B) :
  aborts_well m -> (forall a, aborts_well (f a)) -> aborts_well (bind m f).
Proof.
  intros Hm Hf s msg. unfold bind.
  destruct (res (m s)) as [a|msg'|] eqn:E; cbn [res emitted after].
  - intro H. destruct (Hf a _ _ H) as [(pre & b & Et)|(-> & pre & b & Et)];
      [left|right; split; [reflexivity|]];
      exists (emitted (m s) ++ pre)%list, b; rewrite Et;
      now rewrite app_assoc.
  - intro H. injection H as ->. now apply Hm.
  - discriminate.
Qed.

Lemma aw_ret {A} (a : A) : aborts_well (ret (W:=W) a).
Proof. intros s msg H. discriminate. Qed.

Lemma aw_diverge {A} : aborts_well (diverge (W:=W) (A:=A)).
Proof. intros s msg H. discriminate. Qed.

Lemma aw_call {A} (h : W -> A * W) (ev : A -> Event) : aborts_well (call h ev).
Proof. intros s msg H. discriminate. Qed.

Lemma aw_call_ (h : W -> W) (ev : Event) : aborts_well (call_ h ev).
Proof. intros s msg H. discriminate. Qed.

Lemma aw_set (b : bool) : aborts_well (set_newPowderLayer (W:=W) b).
Proof. intros s msg H. discriminate. Qed.

Lemma aw_get : aborts_well (get_newPowderLayer (W:=W)).
Proof. intros s msg H. discriminate. Qed.

Lemma aw_when (c : bool) (body : M W unit) :
  aborts_well body -> aborts_well (when c body).
Proof. destruct c; [auto|intros _; apply aw_ret]. Qed.

Lemma aw_log (message : string) : aborts_well (log mach message).
Proof. intros s msg H. discriminate. Qed.

Lemma aw_logfatal {A} (message : string) :
  aborts_well (logfatal (A:=A) mach message).
Proof.
  intros s msg H. rewrite logfatal_run in *. cbn [res emitted] in *.
  injection H as <-. left. exists [].
  eexists. reflexivity.
Qed.

Ltac aw_with tac :=
  repeat first
    [ tac
    | assumption
    | apply aw_ret | apply aw_call | apply aw_call_ | apply aw_set
    | apply aw_get | apply aw_log | apply aw_logfatal | apply aw_diverge
    | apply aw_when
    | match goal with
      | |- aborts_well (bind _ _) => apply aw_bind; [|intro]
      | |- aborts_well (if ?c then _ else _) => destruct c
      | |- aborts_well (match ?c with _ => _ end) => destruct c
      end ].

Ltac aw := aw_with fail.

Lemma aw_wait_loop fuel pred i d :
  aborts_well pred -> aborts_well (wait_loop mach fuel pred i d).
Proof.
  intro Hp. induction fuel as [|fuel IH]; cbn [wait_loop];
    unfold sleep, os_time; aw.
Qed.

Lemma aw_wait fuel pred timeout settings :
  aborts_well pred -> aborts_well (wait mach fuel pred timeout settings).
Proof.
  intro Hp. unfold wait, os_time. aw. now apply aw_wait_loop.
Qed.

Lemma aw_wait_for_beam_power_low fuel :
  aborts_well (wait_for_beam_power_low mach fuel).
Proof.
  unfold wait_for_beam_power_low. apply aw_bind.
  - apply aw_wait. unfold hv_is_low, get_hv_current. aw.
  - intros [|]; cbn [negb when]; [apply aw_ret|].
    intros s msg H. unfold clear_exposure_queue in *.
    rewrite bind_call in *. cbn [res emitted after error] in *.
    injection H as <-. right. split; [reflexivity|].
    exists []. eexists. reflexivity.
Qed.

Lemma aw_attempt index layer ld rc : aborts_well (attempt mach index layer ld rc).
Proof.
  unfold attempt, submit, after_exposure, classify, get_field, print,
    start_process_step_exposures, clear_exposure_queue, restart_after_arc_trip.
  aw.
Qed.

Lemma aw_expose_loop fuel index layer :
  forall ld rc, aborts_well (expose_loop mach fuel index layer ld rc).
Proof.
  induction fuel as [|fuel IH]; intros ld rc; cbn [expose_loop];
    destruct ld; aw_with ltac:(first [apply aw_attempt | apply IH]).
Qed.

Lemma aw_process_layers fuel num_layers feed ls :
  forall index, aborts_well (process_layers mach fuel num_layers feed index ls).
Proof.
  induction ls as [|layer rest IH]; intro index; cbn [process_layers];
    unfold process_layer, print, publish_layers, recoat_cycle, beam_is_on,
      restartHV;
    aw_with ltac:(first [ apply aw_wait_for_beam_power_low
                        | apply aw_expose_loop | apply IH ]).
Qed.

Lemma aw_build fuel build_info : aborts_well (build mach tostring fuel build_info).
Proof.
  unfold build, ensure_beam, publish_layers, add_subscription, publish_field,
    start_exposure, print, clear_exposure_queue, beam_off, power_off,
    beam_is_on, restartHV.
  aw_with ltac:(first [ apply aw_wait_for_beam_power_low
                      | apply aw_process_layers | apply aw_wait ]).
  unfold temperature_reached, ensure_beam, get_temperature, beam_is_on,
    restartHV. aw.
Qed.

End AbortProps.

(** C9. On a host whose beam current stays above 1.0 the build ends in
    the first layer with the error "Build Aborted: BeamPowerLow condition
    timed out": the queue clear is its last host call, but the error text
    is never published; the last activity published is "Waiting for beam
    power low".  On every host, every error of the script comes right after
    a queue clear, and every error except this one comes after the
    publication of its own text. *)
Theorem C9_beam_power_low_abort_is_not_published :
  (let r := build sim sim_tostring 100 one_layer_build
                  (start_of (beam_low_from 0 1000)) in
   res r = Raise "Build Aborted: BeamPowerLow condition timed out" /\
   publishes "Build Aborted: BeamPowerLow condition timed out" (emitted r)
     = false /\
   last (emitted r) EvBeamOff = EvClearExposureQueue true /\
   last (activities (emitted r)) "" = "Waiting for beam power low") /\
  (forall (W : Type) (mach : Machine W) (tostring : Q -> string)
          (fuel : nat) (build_info : BuildInfo) (s : State W) (msg : string),
     let r := build mach tostring fuel build_info s in
     res r = Raise msg ->
     published_abort msg (emitted r) \/
     (msg = "Build Aborted: BeamPowerLow condition timed out" /\
      bare_abort (emitted r))).
Proof.
  split.
  - vm_compute. repeat split; reflexivity.
  - intros W mach tostring fuel build_info s msg r H.
    exact (aw_build mach tostring fuel build_info s msg H).
Qed.

(** C7. The spatterSafe branch is not without effect: it inserts the melt
    patterns of the layer into the melt group, before the melt block
    inserts them again.  For the same layer with and without a
    [spatterSafe] list, the pass submits the configured melt pattern twice
    and once, so the four submitted groups differ. *)
Lemma C7_spatter_safe_branch_duplicates_melt :
  submissions
    (emitted (attempt sim 1 spatter_layer false 0
                      (start_of (healthy [] 0 0)))) =
    [([mkPattern "obp/preheat.obp" 2], [],
      [mkPattern "obp/layer1.obp" 1; mkPattern "obp/layer1.obp" 1],
      [mkPattern "obp/postheat.obp" 5])] /\
  submissions
    (emitted (attempt sim 1 plain_layer false 0
                      (start_of (healthy [] 0 0)))) =
    [([mkPattern "obp/preheat.obp" 2], [],
      [mkPattern "obp/layer1.obp" 1],
      [mkPattern "obp/postheat.obp" 5])] /\
  plain_layer = with_spatterSafe spatter_layer None /\
  submissions
    (emitted (attempt sim 1 spatter_layer false 0
                      (start_of (healthy [] 0 0)))) <>
  submissions
    (emitted (attempt sim 1 (with_spatterSafe spatter_layer None) false 0
                      (start_of (healthy [] 0 0)))).
Proof.
  repeat split; try (vm_compute; reflexivity).
  vm_compute. discriminate.
Qed.

(** C8, as the claim has it, fails: [wait] answers [false] before the
    timeout has passed.  Called at second 9/10 with timeout 1 and interval
    1/2, it gives up after half a second, since [os.time] then reads 1.
    Called at second 4/5 with timeout 5 and interval 1, with a predicate
    that takes 1/5 second, it gives up after 24/5 seconds. *)
Lemma C8_wait_gives_up_before_the_timeout :
  (let s := start_of (beam_low_from (9 # 10) 1000) in
   let r := wait sim 100 (hv_is_low sim) 1
                 (Some (mkSettings (Some (1 # 2)))) s in
   res r = Ok false /\
   clock (world s) = (9 # 10)%Q /\
   clock (world (final r)) = (7 # 5)%Q /\
   (clock (world (final r)) - clock (world s) < 1)%Q /\
   emitted r =
     [EvOsTime 0; EvGetHvCurrent (Some 5%Q); EvSleep (1 # 2); EvOsTime 1]) /\
  (let s := start_of (beam_low_from (4 # 5) 1000) in
   let r := wait sim 100 (sleep sim (1 # 5) ;; hv_is_low sim) 5 None s in
   res r = Ok false /\
   clock (world s) = (4 # 5)%Q /\
   clock (world (final r)) = (28 # 5)%Q /\
   (clock (world (final r)) - clock (world s) < 5)%Q).
Proof.
  split; vm_compute; repeat split; reflexivity.
Qed.

(** ** The theorems with hypotheses, at concrete runs *)


(** A heat-balance trip in the first pass of a layer. *)
Lemma C2_heat_balance_trip_completes_the_layer_witness :
  0 <= 10 /\
  res (submit sim 1 plain_layer 0 (start_of (healthy [4] 0 0))) = Ok 4 /\
  exists cleared recovered rest,
    emitted (attempt sim 1 plain_layer false 0 (start_of (healthy [4] 0 0))) =
      (emitted (submit sim 1 plain_layer 0 (start_of (healthy [4] 0 0))) ++
       activity "Arc trip during Heat Balance exposure" ++
       [EvClearExposureQueue cleared;
        EvRestartAfterArcTrip (Some false) 60 recovered] ++ rest)%list.
Proof.
  assert (H1 : 0 <= 10) by lia.
  assert (H2 : res (submit sim 1 plain_layer 0 (start_of (healthy [4] 0 0)))
               = Ok 4) by reflexivity.
  split; [exact H1|]. split; [exact H2|].
  pose proof (C2_heat_balance_trip_completes_the_layer sim 0 1 plain_layer 0
                (start_of (healthy [4] 0 0)) H1 H2) as T.
  cbv zeta in T. destruct T as [(cleared & recovered & rest & E & _) _].
  exists cleared, recovered, rest. exact E.
Defined.

(** A melt trip: the recovery is asked for fresh powder. *)
Lemma C3_fresh_powder_exactly_for_melt_trip_witness :
  res (submit sim 1 plain_layer 0 (start_of (healthy [3] 0 0))) = Ok 3 /\
  1 <= 3 <= 4 /\
  recovery_flags
    (emitted (attempt sim 1 plain_layer false 0 (start_of (healthy [3] 0 0))))
    = [Some (3 =? 3)].
Proof.
  assert (H1 : res (submit sim 1 plain_layer 0 (start_of (healthy [3] 0 0)))
               = Ok 3) by reflexivity.
  assert (H2 : 1 <= 3 <= 4) by lia.
  split; [exact H1|]. split; [exact H2|].
  exact (C3_fresh_powder_exactly_for_melt_trip sim 1 plain_layer false 0
           (start_of (healthy [3] 0 0)) 3 H1 H2).
Defined.

(** * Properties of the converter *)

Import Converter.

Section ConvertProps.

Variable path_name : string -> string.
Variable boss_preheat boss_postheat : BossHeat.

Local Abbreviation mk := (make_layer path_name boss_preheat boss_postheat).
Local Abbreviation forf := (for_files path_name boss_preheat boss_postheat).
Local Abbreviation whilel := (while_layers path_name boss_preheat boss_postheat).

Lemma for_files_spec (n : Z) (files : list BossLayer) :
  forall ls,
    forf n files ls =
      (ls ++ map mk (firstn (Z.to_nat (n - len ls)) files))%list.
Proof.
  induction files as [|f rest IH]; intro ls; cbn [for_files].
  - now rewrite firstn_nil, app_nil_r.
  - destruct (Z.leb_spec n (len ls)) as [H|H].
    + replace (Z.to_nat (n - len ls)) with 0%nat by lia.
      now rewrite app_nil_r.
    + rewrite IH. unfold len in *. rewrite length_app. cbn [List.length].
      replace (Z.to_nat (n - Z.of_nat (List.length ls)))
        with (S (Z.to_nat (n - Z.of_nat (List.length ls + 1)))) by lia.
      cbn [firstn map]. now rewrite <- app_assoc.
Qed.

Lemma length_concat_repeat {A} (l : list A) (k : nat) :
  List.length (List.concat (repeat l k)) = (k * List.length l)%nat.
Proof.
  induction k as [|k IH]; cbn [repeat List.concat]; [reflexivity|].
  rewrite length_app, IH. lia.
Qed.

Lemma concat_repeat_snoc {A} (l : list A) (k : nat) :
  (List.concat (repeat l k) ++ l)%list = List.concat (repeat l (S k)).
Proof.
  induction k as [|k IH]; cbn [repeat List.concat].
  - now rewrite app_nil_r.
  - rewrite <- app_assoc, IH. reflexivity.
Qed.

Lemma concat_repeat_add {A} (l : list A) (j k : nat) :
  List.concat (repeat l (j + k)) = (List.concat (repeat l j) ++ List.concat (repeat l k))%list.
Proof.
  induction j as [|j IH]; cbn [repeat List.concat Nat.add]; [reflexivity|].
  now rewrite IH, app_assoc.
Qed.

Lemma nth_error_concat_repeat {A} (l : list A) (k i : nat) :
  (i < k * List.length l)%nat ->
  nth_error (List.concat (repeat l k)) i = nth_error l (i mod List.length l).
Proof.
  revert i. induction k as [|k IH]; intros i Hi; [lia|].
  cbn [repeat List.concat].
  destruct (Nat.lt_ge_cases i (List.length l)) as [H|H].
  - rewrite nth_error_app1 by exact H. now rewrite Nat.mod_small.
  - rewrite nth_error_app2 by exact H. rewrite IH by lia.
    f_equal.
    replace i with ((i - List.length l) + 1 * List.length l)%nat at 2 by lia.
    rewrite Nat.Div0.mod_add. reflexivity.
Qed.

Lemma in_firstn {A} (k : nat) (l : list A) (x : A) :
  In x (firstn k l) -> In x l.
Proof.
  intro H. rewrite <- (firstn_skipn k l). apply in_or_app. now left.
Qed.

(** What the loop answers from a list that holds [q] full rounds over
    [files]. *)
Lemma while_layers_spec (n : Z) (files : list BossLayer) (fuel : nat) :
  files <> [] ->
  forall q : nat,
    let m := List.length files in
    let N := Z.to_nat n in
    (q * m <= N)%nat ->
    whilel fuel n files (List.concat (repeat (map mk files) q)) =
      if (N <=? (q + fuel) * m)%nat
      then Some (firstn N (List.concat (repeat (map mk files) (q + fuel))))
      else None.
Proof.
  intros Hne. set (L := map mk files).
  assert (Hm : (1 <= List.length files)%nat)
    by (destruct files; [contradiction|cbn; lia]).
  assert (HL : List.length L = List.length files) by apply length_map.
  induction fuel as [|fuel IH]; intros q m N Hq; subst m N.
  - cbn [while_layers]. unfold len. rewrite length_concat_repeat, HL.
    rewrite Nat.add_0_r.
    destruct (Z.ltb_spec (Z.of_nat (q * List.length files)) n);
      destruct (Nat.leb_spec (Z.to_nat n) (q * List.length files)); try lia;
      [reflexivity|].
    f_equal. rewrite firstn_all2; [reflexivity|].
    rewrite length_concat_repeat, HL. lia.
  - cbn [while_layers]. unfold len at 1. rewrite length_concat_repeat, HL.
    destruct (Z.ltb_spec (Z.of_nat (q * List.length files)) n) as [Hlt|Hge].
    + rewrite for_files_spec. unfold len.
      rewrite length_concat_repeat, HL.
      destruct (Nat.le_gt_cases (List.length files)
                  (Z.to_nat (n - Z.of_nat (q * List.length files)))) as [Hfull|Hpart].
      * rewrite firstn_all2 by exact Hfull. fold L.
        rewrite concat_repeat_snoc.
        rewrite (IH (S q)) by (cbn; lia).
        replace (S q + fuel)%nat with (q + S fuel)%nat by lia. reflexivity.
      * destruct (Nat.leb_spec (Z.to_nat n) ((q + S fuel) * List.length files));
          [|nia].
        rewrite <- firstn_map. fold L.
        assert (E : (List.concat (repeat L q) ++
                     firstn (Z.to_nat (n - Z.of_nat (q * List.length files))) L)%list
                    = firstn (Z.to_nat n) (List.concat (repeat L (q + S fuel)))).
        { rewrite concat_repeat_add. cbn [repeat List.concat].
          rewrite firstn_app, length_concat_repeat, HL.
          rewrite (firstn_all2 (List.concat (repeat L q)))
            by (rewrite length_concat_repeat, HL; lia).
          f_equal.
          replace (Z.to_nat n - q * List.length files)%nat
            with (Z.to_nat (n - Z.of_nat (q * List.length files))) by lia.
          rewrite firstn_app, HL.
          replace (Z.to_nat (n - Z.of_nat (q * List.length files))
                   - List.length files)%nat with 0%nat by lia.
          cbn [firstn]. now rewrite app_nil_r. }
        rewrite E.
        assert (Hlen : List.length (firstn (Z.to_nat n)
                         (List.concat (repeat L (q + S fuel)))) = Z.to_nat n).
        { rewrite length_firstn, length_concat_repeat, HL. lia. }
        destruct fuel; cbn [while_layers]; unfold len; rewrite Hlen;
          destruct (Z.ltb_spec (Z.of_nat (Z.to_nat n)) n); try lia; reflexivity.
    + destruct (Nat.leb_spec (Z.to_nat n) ((q + S fuel) * List.length files));
        [|nia].
      f_equal. rewrite concat_repeat_add, firstn_app, length_concat_repeat, HL.
      replace (Z.to_nat n - q * List.length files)%nat with 0%nat by lia.
      cbn [firstn]. rewrite app_nil_r.
      rewrite firstn_all2; [reflexivity|].
      rewrite length_concat_repeat, HL. lia.
Qed.

Lemma while_layers_no_files (n : Z) (fuel : nat) :
  0 < n -> whilel fuel n [] [] = None.
Proof.
  intro Hn. induction fuel as [|fuel IH]; cbn [while_layers for_files];
    unfold len; cbn [List.length];
    destruct (Z.ltb_spec (Z.of_nat 0) n); try lia; [reflexivity|exact IH].
Qed.


(** C10. For a positive number of layers the loop of [convert] ends
    exactly when the list of files is not empty.  When it ends, the list
    has the number of layers asked for, layer [i] is made from entry
    [i mod length files] of the files, and every layer has the pre-heat
    pattern as its one jumpSafe pattern and the post-heat pattern as its
    one heatBalance pattern. *)
Theorem C10_layer_loop_ends_iff_files (n : Z) (files : list BossLayer) :
  0 < n ->
  ((exists fuel ls,
      convert_layers path_name boss_preheat boss_postheat fuel n files
        = Some ls) <-> files <> []) /\
  (files = [] ->
   forall fuel,
     convert_layers path_name boss_preheat boss_postheat fuel n files = None)
  /\
  (forall fuel ls,
     convert_layers path_name boss_preheat boss_postheat fuel n files
       = Some ls ->
     List.length ls = Z.to_nat n /\
     (forall i, (i < Z.to_nat n)%nat ->
        nth_error ls i =
          option_map mk (nth_error files (i mod List.length files))) /\
     Forall (fun layer =>
               jumpSafe layer = Some [jump_safe_dict path_name boss_preheat] /\
               heatBalance layer =
                 Some [heat_balance_dict path_name boss_postheat]) ls).
Proof.
  intro Hn. unfold convert_layers. split; [|split].
  - split.
    + intros (fuel & ls & H) ->.
      rewrite while_layers_no_files in H by exact Hn. discriminate.
    + intro Hne. exists (Z.to_nat n).
      pose proof (while_layers_spec n files (Z.to_nat n) Hne 0%nat) as H.
      cbv zeta in H. cbn [repeat List.concat] in H.
      rewrite H by lia. clear H.
      destruct files as [|f rest]; [contradiction|].
      destruct (Nat.leb_spec (Z.to_nat n)
                  ((0 + Z.to_nat n) * List.length (f :: rest)));
        [eexists; reflexivity|cbn [List.length] in *; nia].
  - intros -> fuel. now apply while_layers_no_files.
  - intros fuel ls H.
    destruct files as [|f rest] eqn:Ef.
    { rewrite while_layers_no_files in H by exact Hn. discriminate. }
    rewrite <- Ef in *.
    assert (Hne : files <> []) by (rewrite Ef; discriminate).
    pose proof (while_layers_spec n files fuel Hne 0%nat) as S.
    cbv zeta in S. cbn [repeat List.concat] in S.
    rewrite S in H by lia. clear S. cbn [Nat.add] in H.
    destruct (Nat.leb_spec (Z.to_nat n) (fuel * List.length files))
      as [Hle|]; [|discriminate].
    injection H as <-.
    split; [|split].
    + rewrite length_firstn, length_concat_repeat, length_map. lia.
    + intros i Hi. rewrite nth_error_firstn.
      destruct (Nat.ltb_spec i (Z.to_nat n)); [|lia].
      rewrite nth_error_concat_repeat by (rewrite length_map; lia).
      now rewrite length_map, nth_error_map.
    + apply Forall_forall. intros layer Hin.
      apply in_firstn, in_concat in Hin.
      destruct Hin as (l & Hl & Hin). apply repeat_spec in Hl. subst l.
      apply in_map_iff in Hin. destruct Hin as (b & <- & _).
      split; reflexivity.
Qed.

End ConvertProps.

(** Three layers from two entries: the loop ends. *)
Lemma C10_layer_loop_ends_iff_files_witness :
  0 < 3 /\
  exists fuel ls,
    convert_layers sample_path_name sample_preheat sample_postheat
                   fuel 3 sample_files = Some ls.
Proof.
  assert (H : 0 < 3) by lia.
  split; [exact H|].
  assert (Hne : sample_files <> []) by discriminate.
  exact (proj2 (proj1 (C10_layer_loop_ends_iff_files sample_path_name
                         sample_preheat sample_postheat 3 sample_files H))
               Hne).
Defined.

(** * Further properties of the build processor *)

Section CountProps.
Context {W : Type}.
Variable mach : Machine W.
Variable tostring : Q -> string.

Lemma count_app c (t1 t2 : list Event) :
  count c (t1 ++ t2) = (count c t1 + count c t2)%nat.
Proof. unfold count. now rewrite filter_app, length_app. Qed.

Lemma am_weaken {A} c (j k : nat) (m : M W A) :
  (j <= k)%nat -> at_most c j m -> at_most c k m.
Proof. intros H Hm s. specialize (Hm s). lia. Qed.

Lemma am_bind {A B} c (j k : nat) (m : M W A) (f : A -> M W B) :
  at_most c j m -> (forall a, at_most c k (f a)) ->
  at_most c (j + k) (bind m f).
Proof.
  intros Hm Hf s. unfold bind. specialize (Hm s).
  destruct (res (m s)) as [a| |]; cbn [emitted after]; try lia.
  rewrite count_app. specialize (Hf a (final (m s))). lia.
Qed.

Lemma am_bind0 {A B} c (m : M W A) (f : A -> M W B) :
  at_most c 0 m -> (forall a, at_most c 0 (f a)) -> at_most c 0 (bind m f).
Proof. intros. now apply (am_bind c 0 0). Qed.

Lemma am_ret {A} c k (a : A) : at_most c k (ret (W:=W) a).
Proof. intro s. cbn. lia. Qed.

Lemma am_error {A} c k msg : at_most c k (error (W:=W) (A:=A) msg).
Proof. intro s. cbn. lia. Qed.

Lemma am_diverge {A} c k : at_most c k (diverge (W:=W) (A:=A)).
Proof. intro s. cbn. lia. Qed.

Lemma am_set c k b : at_most c k (set_newPowderLayer (W:=W) b).
Proof. intro s. cbn. lia. Qed.

Lemma am_get c k : at_most c k (get_newPowderLayer (W:=W)).
Proof. intro s. cbn. lia. Qed.

Lemma am_call {A} c k (h : W -> A * W) (ev : A -> Event) :
  (forall a, c (ev a) = false) -> at_most c k (call h ev).
Proof. intros H s. unfold count. cbn. rewrite H. cbn. lia. Qed.

Lemma am_call_ c k (h : W -> W) (ev : Event) :
  c ev = false -> at_most c k (call_ h ev).
Proof. intros H s. unfold count. cbn. rewrite H. cbn. lia. Qed.

Lemma am_call1 {A} c k (h : W -> A * W) (ev : A -> Event) :
  at_most c (S k) (call h ev).
Proof. intros s. unfold count. cbn. destruct (c _); cbn; lia. Qed.

Lemma am_when c k b (body : M W unit) :
  at_most c k body -> at_most c k (when b body).
Proof. destruct b; [auto|intros _; apply am_ret]. Qed.

End CountProps.

Ltac am0_with tac :=
  repeat first
    [ tac
    | assumption
    | apply am_ret | apply am_error | apply am_diverge | apply am_set
    | apply am_get
    | apply am_call; intro; reflexivity
    | apply am_call_; reflexivity
    | apply am_when
    | progress cbv zeta
    | match goal with
      | |- at_most _ 0 (bind _ _) => apply am_bind0; [|intro]
      | |- at_most _ _ (if ?c then _ else _) => destruct c
      | |- at_most _ _ (match ?c with _ => _ end) => destruct c
      end ].

Ltac unfold_api :=
  unfold logfatal; unfold log;
  unfold print, publish_field, publish_layers, add_subscription,
    clear_exposure_queue, restart_after_arc_trip, get_field,
    start_process_step_exposures, recoat_cycle, beam_is_on, restartHV,
    start_exposure, beam_off, power_off, get_temperature, get_hv_current,
    sleep, os_time.

Section RecoatProps.
Context {W : Type}.
Variable mach : Machine W.
Variable tostring : Q -> string.

Lemma wait_loop_no_recoat fuel pred i d :
  at_most is_recoat 0 pred -> at_most is_recoat 0 (wait_loop mach fuel pred i d).
Proof.
  intro Hp. induction fuel as [|fuel IH]; cbn [wait_loop]; unfold_api;
    am0_with fail.
Qed.

Lemma wait_for_beam_power_low_no_recoat fuel :
  at_most is_recoat 0 (wait_for_beam_power_low mach fuel).
Proof.
  unfold wait_for_beam_power_low, wait, hv_is_low. unfold_api.
  am0_with ltac:(apply wait_loop_no_recoat).
Qed.

Lemma attempt_no_recoat index layer ld rc :
  at_most is_recoat 0 (attempt mach index layer ld rc).
Proof.
  unfold attempt, submit, after_exposure, classify. unfold_api. am0_with fail.
Qed.

Lemma expose_loop_no_recoat fuel index layer :
  forall ld rc, at_most is_recoat 0 (expose_loop mach fuel index layer ld rc).
Proof.
  induction fuel as [|fuel IH]; intros ld rc; cbn [expose_loop]; destruct ld;
    am0_with ltac:(first [apply attempt_no_recoat | apply IH]).
Qed.

Lemma process_layer_recoats fuel num feed index layer :
  at_most is_recoat 1 (process_layer mach fuel num feed index layer).
Proof.
  unfold process_layer.
  apply (am_bind is_recoat 0 1); [unfold_api; am0_with fail|intro].
  apply (am_bind is_recoat 0 1); [unfold_api; am0_with fail|intro].
  apply (am_bind is_recoat 0 1); [unfold_api; am0_with fail|intro].
  apply (am_bind is_recoat 0 1);
    [apply wait_for_beam_power_low_no_recoat|intro].
  apply (am_bind is_recoat 0 1); [unfold_api; am0_with fail|intro].
  apply (am_bind is_recoat 1 0); [unfold recoat_cycle; apply am_call1|intro].
  unfold_api. am0_with ltac:(apply expose_loop_no_recoat).
Qed.

Lemma process_layers_recoats fuel num feed ls :
  forall index,
    at_most is_recoat (List.length ls)
      (process_layers mach fuel num feed index ls).
Proof.
  induction ls as [|layer rest IH]; intro index; cbn [process_layers List.length].
  - apply am_ret.
  - apply (am_bind is_recoat 1 (List.length rest));
      [apply process_layer_recoats|intro; apply IH].
Qed.

End RecoatProps.
Section ExposureBoundProps.
Context {W : Type}.
Variable mach : Machine W.
Variable tostring : Q -> string.

Lemma wait_loop_no_exposure fuel pred i d :
  at_most is_exposure 0 pred ->
  at_most is_exposure 0 (wait_loop mach fuel pred i d).
Proof.
  intro Hp. induction fuel as [|fuel IH]; cbn [wait_loop]; unfold_api;
    am0_with fail.
Qed.

Lemma wait_no_exposure fuel pred timeout settings :
  at_most is_exposure 0 pred ->
  at_most is_exposure 0 (wait mach fuel pred timeout settings).
Proof.
  intro Hp. unfold wait. unfold_api.
  am0_with ltac:(apply wait_loop_no_exposure).
Qed.

Lemma wait_for_beam_power_low_no_exposure fuel :
  at_most is_exposure 0 (wait_for_beam_power_low mach fuel).
Proof.
  unfold wait_for_beam_power_low, hv_is_low.
  am0_with ltac:(first [apply wait_no_exposure | progress unfold_api]).
Qed.

Lemma expose_loop_exposures index layer fuel :
  forall rc, 0 <= rc <= 10 ->
    at_most is_exposure (Z.to_nat (11 - rc))
      (expose_loop mach fuel index layer false rc).
Proof.
  induction fuel as [|fuel IH]; intros rc Hrc s.
  - change (0 <= Z.to_nat (11 - rc))%nat. lia.
  - rewrite expose_loop_step.
    pose proof (attempt_cases mach index layer rc s (proj2 Hrc)) as H.
    cbv zeta in H. destruct H as [Hexp H]. unfold exposures in Hexp.
    fold (count is_exposure (emitted (attempt mach index layer false rc s))) in Hexp.
    destruct (res (attempt mach index layer false rc s))
      as [[done rc']|msg|] eqn:Hres; [| |contradiction].
    + rewrite (bind_ok _ _ _ _ Hres). cbn [fst snd].
      rewrite emitted_after, count_app, Hexp.
      destruct H as [[-> ->]|(-> & -> & Hle)].
      * rewrite expose_loop_done. cbn [emitted].
        change (count is_exposure []) with 0%nat. lia.
      * specialize (IH (rc + 1) ltac:(lia)
                       (final (attempt mach index layer false rc s))). lia.
    + rewrite (bind_raise _ _ _ _ Hres). cbn [emitted]. rewrite Hexp. lia.
Qed.

Lemma process_layer_exposures fuel num feed index layer :
  at_most is_exposure 11 (process_layer mach fuel num feed index layer).
Proof.
  unfold process_layer.
  repeat (apply (am_bind is_exposure 0 11);
          [solve [first [ apply wait_for_beam_power_low_no_exposure
                        | unfold_api; am0_with fail ]]|intro]).
  cbv zeta. apply (expose_loop_exposures index layer fuel 0). lia.
Qed.

Lemma process_layers_exposures fuel num feed ls :
  forall index,
    at_most is_exposure (11 * List.length ls)
      (process_layers mach fuel num feed index ls).
Proof.
  induction ls as [|layer rest IH]; intro index; cbn [process_layers List.length].
  - apply am_ret.
  - replace (11 * S (List.length rest))%nat
      with (11 + 11 * List.length rest)%nat by lia.
    apply am_bind; [apply process_layer_exposures|intro; apply IH].
Qed.

Lemma build_exposures fuel build_info :
  at_most is_exposure (11 * List.length (layers build_info))
    (build mach tostring fuel build_info).
Proof.
  unfold build. cbv zeta.
  repeat (apply (am_bind is_exposure 0 (11 * List.length (layers build_info)));
          [solve [first [ apply wait_no_exposure;
                          unfold temperature_reached, ensure_beam;
                          unfold_api; am0_with fail
                        | unfold ensure_beam; unfold_api; am0_with fail ]]
          |intro]).
  replace (11 * List.length (layers build_info))%nat
    with (11 * List.length (layers build_info) + 0)%nat by lia.
  apply am_bind; [apply process_layers_exposures|intro].
  unfold_api.
  am0_with ltac:(apply wait_for_beam_power_low_no_exposure).
Qed.

Lemma build_recoats fuel build_info :
  at_most is_recoat (List.length (layers build_info))
    (build mach tostring fuel build_info).
Proof.
  unfold build. cbv zeta.
  repeat (apply (am_bind is_recoat 0 (List.length (layers build_info)));
          [solve [first [ unfold wait; apply am_bind0;
                          [unfold_api; am0_with fail
                          |intro; apply wait_loop_no_recoat;
                           unfold temperature_reached, ensure_beam;
                           unfold_api; am0_with fail]
                        | unfold ensure_beam; unfold_api; am0_with fail ]]
          |intro]).
  replace (List.length (layers build_info))
    with (List.length (layers build_info) + 0)%nat by lia.
  apply am_bind; [apply process_layers_recoats|intro].
  unfold_api.
  am0_with ltac:(apply wait_for_beam_power_low_no_recoat).
Qed.

End ExposureBoundProps.
(** X6. The loop of a layer never recoats, however often the layer is
    tried: a layer is recoated at most once, and a build at most once per
    layer. *)
Theorem layers_are_recoated_at_most_once :
  (forall (W : Type) (mach : Machine W) (fuel : nat) (index : Z)
          (layer : Layer) (layerDone : bool) (retryCount : Z) (s : State W),
     count is_recoat
       (emitted (expose_loop mach fuel index layer layerDone retryCount s))
       = 0%nat) /\
  (forall (W : Type) (mach : Machine W) (fuel : nat) (num_layers : Z)
          (feed : LayerFeed) (index : Z) (layer : Layer) (s : State W),
     (count is_recoat
        (emitted (process_layer mach fuel num_layers feed index layer s))
      <= 1)%nat) /\
  (forall (W : Type) (mach : Machine W) (tostring : Q -> string)
          (fuel : nat) (build_info : BuildInfo) (s : State W),
     (count is_recoat (emitted (build mach tostring fuel build_info s))
      <= List.length (layers build_info))%nat).
Proof.
  split; [|split].
  - intros. pose proof (expose_loop_no_recoat mach fuel index layer
                          layerDone retryCount s). lia.
  - intros. apply process_layer_recoats.
  - intros. apply build_recoats.
Qed.

(** X7. A build submits at most 11 times per layer, on every host and with
    every budget. *)
Theorem build_submits_at_most_eleven_times_per_layer
    (W : Type) (mach : Machine W) (tostring : Q -> string) (fuel : nat)
    (build_info : BuildInfo) (s : State W) :
  (exposures (emitted (build mach tostring fuel build_info s))
   <= 11 * List.length (layers build_info))%nat.
Proof. exact (build_exposures mach tostring fuel build_info s). Qed.

Section PassProps.
Context {W : Type}.
Variable mach : Machine W.
Variable tostring : Q -> string.

(** X: heat balance *)
(** X1. In every pass the heatBalance group that is submitted has, for each
    configured heatBalance pattern, Lua's sum of the pattern's own
    repetitions and the value read from the topic PostHeatRepetitions in
    this pass, which wraps around at 64 bits.  Whenever the repetitions
    plus the value are within the range of a Lua integer for each pattern,
    it is this number that is submitted: 5 repetitions and the value 3
    give 8. *)
Theorem heat_balance_repetitions_are_the_sum
    (index : Z) (layer : Layer) (layerDone : bool) (retryCount : Z)
    (s : State W) :
  (exists js ss ml,
     submissions (emitted (attempt mach index layer layerDone retryCount s)) =
       [(js, ss, ml,
         match heatBalance layer with
         | Some l =>
             map (fun obp =>
                    mkPattern (file obp)
                              (lua_add (repetitions obp)
                                       (post_heat_read mach s))) l
         | None => []
         end)]) /\
  (forall l,
     heatBalance layer = Some l ->
     (forall obp, In obp l ->
        in_int64 (repetitions obp + post_heat_read mach s)) ->
     exists js ss ml,
       submissions
         (emitted (attempt mach index layer layerDone retryCount s)) =
         [(js, ss, ml,
           map (fun obp =>
                  mkPattern (file obp)
                            (repetitions obp + post_heat_read mach s)) l)]) /\
  In (EvGetField heat_balance_input "repetitions" (post_heat_read mach s))
     (emitted (attempt mach index layer layerDone retryCount s)) /\
  (exists js ss ml,
     submissions
       (emitted (attempt sim 1 plain_layer false 0
                         (start_of (healthy [] 0 3)))) =
       [(js, ss, ml, [mkPattern "obp/postheat.obp" 8])]).
Proof.
  split; [|split; [|split]].
  - do 3 eexists. rewrite attempt_submissions. unfold build_heatBalancePatterns.
    destruct (heatBalance layer) as [l|]; [|reflexivity].
    now rewrite insert_all_map.
  - intros l Hl Hrange. do 3 eexists. rewrite attempt_submissions.
    unfold build_heatBalancePatterns. rewrite Hl.
    rewrite insert_all_map. cbn [app]. f_equal. f_equal.
    apply map_ext_in. intros obp Hin.
    now rewrite (lua_add_in_range _ _ (Hrange obp Hin)).
  - destruct (submit_run mach index layer retryCount s) as (err & w' & E).
    rewrite (attempt_run _ _ _ _ _ _ err) by now rewrite E.
    rewrite emitted_after, E. apply in_or_app. left. cbn [emitted].
    cbn. auto.
  - do 3 eexists. vm_compute. reflexivity.
Qed.

(** X2. The melt group of a pass is the configured melt list; for a layer
    with a [spatterSafe] list it is the configured melt list twice over. *)
Theorem melt_group_submitted
    (index : Z) (layer : Layer) (layerDone : bool) (retryCount : Z)
    (s : State W) :
  exists js ss hb,
    submissions (emitted (attempt mach index layer layerDone retryCount s)) =
      [(js, ss,
        match spatterSafe layer with
        | Some _ => (melt layer ++ melt layer)%list
        | None => melt layer
        end, hb)].
Proof.
  do 3 eexists. rewrite attempt_submissions. unfold build_meltPatterns.
  destruct (spatterSafe layer); rewrite !insert_all_map, !copy_patterns;
    reflexivity.
Qed.

Lemma activities_app (t1 t2 : list Event) :
  activities (t1 ++ t2) = (activities t1 ++ activities t2)%list.
Proof.
  induction t1 as [|e t1 IH]; [reflexivity|].
  rewrite <- app_comm_cons.
  destruct e; try exact IH.
  cbn [activities]. 
  repeat match goal with
         | |- context [match ?x with _ => _ end] => destruct x; try exact IH
         end.
  cbn [app]. now rewrite IH.
Qed.

Lemma submit_keeps_newPowderLayer index layer rc (s : State W) :
  newPowderLayer (final (submit mach index layer rc s)) = newPowderLayer s.
Proof.
  destruct (submit_run mach index layer rc s) as (err & w' & E).
  now rewrite E.
Qed.

(** X: an answer outside 0..4 *)
(** X3. An answer of the machine outside 0..4 takes no branch of the
    classification: the recovery is called with the global [newPowderLayer]
    as it was before the pass, no trip is published, and the pass counts
    as failed. *)
Theorem unknown_answer_is_a_failed_pass
    (index : Z) (layer : Layer) (retryCount : Z) (s : State W) (err_id : Z) :
  res (submit mach index layer retryCount s) = Ok err_id ->
  err_id < 0 \/ 4 < err_id ->
  let a := attempt mach index layer false retryCount s in
  recovery_flags (emitted a) = [newPowderLayer s] /\
  activities (emitted a) =
    (activities (emitted (submit mach index layer retryCount s)) ++
     match res a with
     | Raise msg => [msg]
     | _ => []
     end)%list /\
  (forall done rc', res a = Ok (done, rc') ->
     done = false /\ rc' = retryCount + 1).
Proof.
  intros Hsub Herr a. subst a.
  rewrite (attempt_run _ _ _ _ _ _ _ Hsub).
  rewrite emitted_after, res_after, recovery_flags_app, submit_recovery_flags.
  rewrite <- (submit_keeps_newPowderLayer index layer retryCount s).
  generalize (final (submit mach index layer retryCount s)) as s1.
  generalize (emitted (submit mach index layer retryCount s)) as t1.
  intros t1 s1.
  exec_after_exposure; try lia.
  all: split; [reflexivity|].
  all: split; [|intros done rc' H; try discriminate H; injection H as <- <-; auto].
  all: rewrite activities_app; f_equal.
Qed.


(** X: a layer is tried again only after a recovery that succeeded *)
(** X4. A pass that leaves the layer undone ends with a queue clear and a
    recovery that succeeded: a layer is never tried again without them. *)
Theorem retry_follows_recovery
    (index : Z) (layer : Layer) (retryCount : Z) (s : State W) (rc' : Z) :
  res (attempt mach index layer false retryCount s) = Ok (false, rc') ->
  exists pre cleared flag,
    emitted (attempt mach index layer false retryCount s) =
      (pre ++ [EvClearExposureQueue cleared;
               EvRestartAfterArcTrip flag 60 true])%list.
Proof.
  destruct (submit_ok mach index layer retryCount s) as (err & Hsub).
  rewrite (attempt_run _ _ _ _ _ _ _ Hsub).
  rewrite emitted_after, res_after.
  generalize (final (submit mach index layer retryCount s)) as s1.
  generalize (emitted (submit mach index layer retryCount s)) as t1.
  intros t1 s1.
  exec_after_exposure; intro H; try discriminate H.
  all: match goal with
       | E : negb ?x = false |- _ =>
           apply negb_false_iff in E; rewrite E
       end.
  all: rewrite ?app_nil_r, <- ?app_assoc; cbn [app];
    rewrite ?app_assoc; do 3 eexists;
    match goal with
    | |- (?a ++ [?x; ?y])%list = _ => reflexivity
    | |- (?a ++ ?b ++ [?x; ?y])%list = _ => rewrite app_assoc; reflexivity
    | _ => idtac
    end.
  all: match goal with |- ?G => idtac G end.
Qed.

End PassProps.
(** An answer 7 in the first pass of a build: the recovery gets [nil]. *)
Lemma unknown_answer_is_a_failed_pass_witness :
  res (submit sim 1 plain_layer 0 (start_of (healthy [7] 0 0))) = Ok 7 /\
  (7 < 0 \/ 4 < 7) /\
  recovery_flags
    (emitted (attempt sim 1 plain_layer false 0 (start_of (healthy [7] 0 0))))
    = [None].
Proof.
  assert (H1 : res (submit sim 1 plain_layer 0 (start_of (healthy [7] 0 0)))
               = Ok 7) by reflexivity.
  assert (H2 : 7 < 0 \/ 4 < 7) by lia.
  split; [exact H1|]. split; [exact H2|].
  exact (proj1 (unknown_answer_is_a_failed_pass sim 1 plain_layer 0
                  (start_of (healthy [7] 0 0)) 7 H1 H2)).
Defined.

(** A melt trip in the first pass. *)
Lemma retry_follows_recovery_witness :
  res (attempt sim 1 plain_layer false 0 (start_of (healthy [3] 0 0)))
    = Ok (false, 1) /\
  exists pre cleared flag,
    emitted (attempt sim 1 plain_layer false 0 (start_of (healthy [3] 0 0))) =
      (pre ++ [EvClearExposureQueue cleared;
               EvRestartAfterArcTrip flag 60 true])%list.
Proof.
  assert (H : res (attempt sim 1 plain_layer false 0
                     (start_of (healthy [3] 0 0))) = Ok (false, 1))
    by reflexivity.
  split; [exact H|].
  exact (retry_follows_recovery sim 1 plain_layer 0
           (start_of (healthy [3] 0 0)) 1 H).
Defined.

Section BeamPowerProps.
Context {W : Type}.
Variable mach : Machine W.
Variable tostring : Q -> string.

Lemma hv_is_low_run (s : State W) :
  hv_is_low mach s =
    mkRun (Ok match fst (m_get_hv_current mach (world s)) with
              | Some c => Qle_bool c 1
              | None => false
              end)
          (mkState (snd (m_get_hv_current mach (world s))) (newPowderLayer s))
          [EvGetHvCurrent (fst (m_get_hv_current mach (world s)))].
Proof. unfold hv_is_low, get_hv_current. now rewrite bind_call. Qed.

(** X5. [wait_for_beam_power_low] returns only right after a reading of the
    beam current that is there and at most 1.0; its only error is the
    time-out, raised right after a sleep, a clock reading at least 30
    seconds after the first one, and a queue clear. *)
Theorem beam_power_low_outcomes (fuel : nat) (s : State W) :
  let r := wait_for_beam_power_low mach fuel s in
  (res r = Ok tt ->
   exists pre c,
     emitted r = (pre ++ [EvGetHvCurrent (Some c)])%list /\ (c <= 1)%Q) /\
  (forall msg, res r = Raise msg ->
     msg = "Build Aborted: BeamPowerLow condition timed out" /\
     exists start pre now cleared,
       emitted r =
         (EvOsTime start :: pre ++
          [EvSleep 1; EvOsTime now; EvClearExposureQueue cleared])%list /\
       (inject_Z start + 30 <= inject_Z now)%Q).
Proof.
  cbv zeta. unfold wait_for_beam_power_low, wait, os_time.
  rewrite bind_bind, bind_call. cbv beta.
  set (start := fst (m_os_time mach (world s))).
  set (s1 := mkState (snd (m_os_time mach (world s))) (newPowderLayer s)).
  pose proof (wait_loop_true mach fuel (hv_is_low mach) (wait_interval None)
                (inject_Z start + 30) s1) as Ht.
  pose proof (wait_loop_false mach fuel (hv_is_low mach) (wait_interval None)
                (inject_Z start + 30) s1) as Hf.
  assert (Hnr : forall msg,
            res (wait_loop mach fuel (hv_is_low mach) (wait_interval None)
                   (inject_Z start + 30) s1) <> Raise msg).
  { generalize s1. clear.
    induction fuel as [|fuel IH]; intros s1 msg; [discriminate|].
    rewrite wait_loop_step. unfold bind. rewrite hv_is_low_run.
    cbn [res final emitted].
    destruct (match fst (m_get_hv_current mach (world s1)) with
              | Some c => Qle_bool c 1 | None => false end);
      [discriminate|].
    rewrite res_after.
    destruct (Qle_bool _ _); [discriminate|apply IH]. }
  rewrite res_after, emitted_after.
  generalize dependent (wait_loop mach fuel (hv_is_low mach)
                          (wait_interval None) (inject_Z start + 30)).
  intros m Ht Hf Hnr.
  destruct (res (m s1)) as [[|]| |] eqn:E.
  - rewrite (bind_ok _ _ _ _ E). cbn [negb when]. unfold ret.
    rewrite res_after, emitted_after. cbn [res emitted].
    split; [|discriminate].
    intros _. destruct (Ht eq_refl) as (pre & sk & Hk & Et & _).
    rewrite hv_is_low_run in Hk, Et. cbn [res emitted] in Hk, Et.
    destruct (fst (m_get_hv_current mach (world sk))) as [c|];
      [|discriminate].
    exists (EvOsTime start :: pre), c. rewrite app_nil_r, Et.
    split; [reflexivity|]. apply Qle_bool_iff. now injection Hk.
  - rewrite (bind_ok _ _ _ _ E). cbn [negb when].
    unfold clear_exposure_queue. rewrite bind_call. cbv beta.
    rewrite !res_after, !emitted_after. cbn [res emitted error].
    split; [discriminate|].
    intros msg H. injection H as <-. split; [reflexivity|].
    destruct (Hf eq_refl) as (pre & now & Et & Hd).
    exists start, pre, now. eexists. rewrite Et.
    split; [|exact Hd]. cbn [wait_interval]. rewrite app_nil_r.
    cbn [app]. rewrite <- app_assoc. reflexivity.
  - exfalso. exact (Hnr _ eq_refl).
  - rewrite (bind_diverge _ _ _ E). cbn [res]. split; [discriminate|].
    intros msg H. discriminate H.
Qed.

End BeamPowerProps.
Section SuccessProps.
Context {W : Type}.
Variable mach : Machine W.
Variable tostring : Q -> string.

Lemma progress_app (t1 t2 : list Event) :
  progress (t1 ++ t2) = (progress t1 ++ progress t2)%list.
Proof.
  induction t1 as [|e t1 IH]; [reflexivity|].
  rewrite <- app_comm_cons. destruct e; cbn [progress]; try exact IH.
  cbn [app]. now rewrite IH.
Qed.

Lemma summary_app (t1 t2 : list Event) :
  summary (t1 ++ t2) = both (summary t1) (summary t2).
Proof.
  unfold summary, both; cbn [n_exposures n_recoats n_sleeps flags published].
  now rewrite exposures_app, !count_app, recovery_flags_app, progress_app.
Qed.

Lemma plus_nothing_r (a : Summary) : both a nothing = a.
Proof.
  destruct a. unfold both, nothing.
  cbn [n_exposures n_recoats n_sleeps flags published].
  now rewrite !Nat.add_0_r, !app_nil_r.
Qed.

Lemma plus_nothing_l (a : Summary) : both nothing a = a.
Proof. now destruct a. Qed.

Lemma yields_bind {A B} (m : M W A) (f : A -> M W B) P Q s1 s2 :
  yields m P s1 -> (forall a, P a -> yields (f a) Q s2) ->
  yields (bind m f) Q (both s1 s2).
Proof.
  intros Hm Hf s. destruct (Hm s) as (a & s' & t & E & Pa & S1).
  destruct (Hf a Pa s') as (b & s'' & t' & E' & Qb & S2).
  exists b, s'', (t ++ t')%list. split; [|split; [exact Qb|]].
  - unfold bind. rewrite E. cbn [res final emitted]. now rewrite E'.
  - now rewrite summary_app, S1, S2.
Qed.

Lemma yields_quiet_bind {A B} (m : M W A) (f : A -> M W B) P Q sm :
  yields m P nothing -> (forall a, P a -> yields (f a) Q sm) ->
  yields (bind m f) Q sm.
Proof.
  intros Hm Hf. rewrite <- (plus_nothing_l sm). now apply yields_bind with P.
Qed.

Lemma yields_ret {A} (a : A) : yields (ret (W:=W) a) (eq a) nothing.
Proof. intro s. exists a, s, []. repeat split. Qed.

Lemma yields_call {A} (h : W -> A * W) (ev : A -> Event) sm :
  (forall a, summary [ev a] = sm) ->
  yields (call h ev) (fun a => exists w, a = fst (h w)) sm.
Proof. intros H s. do 3 eexists. split; [reflexivity|]. split; eauto. Qed.

Lemma yields_call_ (h : W -> W) (ev : Event) sm :
  summary [ev] = sm -> yields (call_ h ev) (eq tt) sm.
Proof. intros H s. do 3 eexists. split; [reflexivity|]. split; eauto. Qed.

Lemma yields_weaken {A} (m : M W A) (P Q : A -> Prop) sm :
  (forall a, P a -> Q a) -> yields m P sm -> yields m Q sm.
Proof.
  intros H Hm s. destruct (Hm s) as (a & s' & t & E & Pa & S).
  exists a, s', t. auto.
Qed.

Lemma yields_log (message : string) :
  yields (log mach message) (eq tt) nothing.
Proof. intro s. do 3 eexists. split; [reflexivity|]. split; reflexivity. Qed.

Lemma yields_set (b : bool) :
  yields (set_newPowderLayer (W:=W) b) (eq tt) nothing.
Proof. intro s. do 3 eexists. repeat split. Qed.

Variable sensor : string.
Variable target : Q.
Hypothesis Hnf : never_fails mach sensor target.

Let Hbeam := proj1 Hnf.
Let Htemp := proj1 (proj2 Hnf).
Let Hclear := proj1 (proj2 (proj2 Hnf)).
Let Hhv := proj1 (proj2 (proj2 (proj2 Hnf))).
Let Hrecoat := proj1 (proj2 (proj2 (proj2 (proj2 Hnf)))).
Let Hexp := proj2 (proj2 (proj2 (proj2 (proj2 Hnf)))).

Lemma yields_beam_is_on : yields (beam_is_on mach) (eq true) nothing.
Proof.
  eapply yields_weaken; [|apply yields_call; intro; reflexivity].
  intros a (w & ->). now rewrite Hbeam.
Qed.

Lemma yields_clear : yields (clear_exposure_queue mach) (eq true) nothing.
Proof.
  eapply yields_weaken; [|apply yields_call; intro; reflexivity].
  intros a (w & ->). now rewrite Hclear.
Qed.

Lemma yields_recoat feed :
  yields (recoat_cycle mach feed) (eq true) (mkSummary 0 1 0 [] []).
Proof.
  eapply yields_weaken; [|apply yields_call; intro; reflexivity].
  intros a (w & ->). now rewrite Hrecoat.
Qed.

Lemma yields_exposures js ss ml hb :
  yields (start_process_step_exposures mach js ss ml hb) (eq 0)
         (mkSummary 1 0 0 [] []).
Proof.
  eapply yields_weaken; [|apply yields_call; intro; reflexivity].
  intros a (w & ->). now rewrite Hexp.
Qed.

Lemma yields_hv_is_low : yields (hv_is_low mach) (eq true) nothing.
Proof.
  unfold hv_is_low, get_hv_current.
  eapply yields_quiet_bind; [apply yields_call; intro; reflexivity|].
  intros a (w & ->). destruct (Hhv w) as (c & -> & ->). apply yields_ret.
Qed.

Lemma yields_ensure_beam : yields (ensure_beam mach) (eq tt) nothing.
Proof.
  unfold ensure_beam.
  eapply yields_quiet_bind; [apply yields_beam_is_on|].
  intros a <-. apply yields_ret.
Qed.

Lemma yields_temperature_reached :
  yields (temperature_reached mach sensor target) (eq true) nothing.
Proof.
  unfold temperature_reached, get_temperature.
  eapply yields_quiet_bind; [apply yields_ensure_beam|]. intros _ _.
  eapply yields_quiet_bind; [apply yields_call; intro; reflexivity|].
  intros a (w & ->). destruct (Htemp w) as (c & -> & ->). apply yields_ret.
Qed.

Lemma yields_wait (fuel : nat) (pred : M W bool) timeout settings :
  yields pred (eq true) nothing ->
  yields (wait mach (S fuel) pred timeout settings) (eq true) nothing.
Proof.
  intro Hp. unfold wait, os_time.
  eapply yields_quiet_bind; [apply yields_call; intro; reflexivity|].
  intros start _. cbn [wait_loop].
  eapply yields_quiet_bind; [exact Hp|]. intros a <-. apply yields_ret.
Qed.

Lemma yields_wait_for_beam_power_low (fuel : nat) :
  yields (wait_for_beam_power_low mach (S fuel)) (eq tt) nothing.
Proof.
  unfold wait_for_beam_power_low.
  eapply yields_quiet_bind; [apply yields_wait, yields_hv_is_low|].
  intros a <-. apply yields_ret.
Qed.

Ltac quiet_call :=
  first [ apply yields_log
        | apply yields_call_; reflexivity
        | eapply yields_weaken;
          [|apply yields_call; intro; reflexivity]; intros; exact I ].

Lemma yields_attempt (index : Z) (layer : Layer) (rc : Z) :
  rc <= 10 ->
  yields (attempt mach index layer false rc) (eq (true, rc))
         (mkSummary 1 0 0 [] []).
Proof.
  intro Hrc. unfold attempt, submit. cbv zeta.
  unfold get_field, print.
  rewrite <- (plus_nothing_r (mkSummary 1 0 0 [] [])).
  eapply yields_bind with (P := eq 0).
  - repeat (eapply yields_quiet_bind; [quiet_call|intros ? _]).
    apply yields_exposures.
  - intros err <-. unfold after_exposure, classify, maxRetryCount.
    cbn [Z.eqb negb when].
    eapply yields_quiet_bind; [apply yields_ret|]. intros d <-.
    eapply yields_quiet_bind; [apply yields_ret|]. intros _ _.
    cbn [negb]. destruct (Z.ltb_spec 10 rc); [lia|]. cbn [when].
    eapply yields_quiet_bind; [apply yields_ret|]. intros _ _.
    apply yields_ret.
Qed.

Lemma yields_process_layer (fuel : nat) (num : Z) (feed : LayerFeed)
    (index : Z) (layer : Layer) :
  yields (process_layer mach (S fuel) num feed index layer) (eq tt)
         (mkSummary 1 1 0 [] [(num, index)]).
Proof.
  unfold process_layer.
  eapply yields_quiet_bind; [quiet_call|intros ? _].
  change (mkSummary 1 1 0 [] [(num, index)])
    with (both (mkSummary 0 0 0 [] [(num, index)]) (mkSummary 1 1 0 [] [])).
  eapply yields_bind; [apply yields_call_; reflexivity|intros ? _].
  eapply yields_quiet_bind; [quiet_call|intros ? _].
  eapply yields_quiet_bind;
    [apply yields_wait_for_beam_power_low|intros ? _].
  eapply yields_quiet_bind; [quiet_call|intros ? _].
  change (mkSummary 1 1 0 [] [])
    with (both (mkSummary 0 1 0 [] []) (mkSummary 1 0 0 [] [])).
  eapply yields_bind; [apply yields_recoat|intros ? <-].
  cbn [negb when].
  eapply yields_quiet_bind; [apply yields_ret|intros ? _].
  eapply yields_quiet_bind; [apply yields_beam_is_on|intros ? <-].
  cbn [negb when].
  eapply yields_quiet_bind; [apply yields_ret|intros ? _].
  cbv zeta. cbn [expose_loop].
  rewrite <- (plus_nothing_r (mkSummary 1 0 0 [] [])).
  eapply yields_bind; [apply (yields_attempt index layer 0); lia|].
  intros st <-. cbn [fst snd].
  intro s. rewrite expose_loop_done. exists tt, s, []. repeat split.
Qed.

Lemma yields_process_layers (fuel : nat) (num : Z) (feed : LayerFeed)
    (ls : list Layer) :
  forall index,
    yields (process_layers mach (S fuel) num feed index ls) (eq tt)
      (mkSummary (List.length ls) (List.length ls) 0 []
         (map (fun i => (num, index + Z.of_nat i)) (seq 0 (List.length ls)))).
Proof.
  induction ls as [|layer rest IH]; intro index; cbn [process_layers].
  - apply yields_ret.
  - match goal with
    | |- yields _ _ ?sm =>
        replace sm
          with (both (mkSummary 1 1 0 [] [(num, index)])
                  (mkSummary (List.length rest) (List.length rest) 0 []
                     (map (fun i => (num, index + 1 + Z.of_nat i))
                          (seq 0 (List.length rest)))))
    end.
    + eapply yields_bind; [apply yields_process_layer|intros _ _; apply IH].
    + unfold both.
      cbn [n_exposures n_recoats n_sleeps flags published app List.length
           seq map].
      rewrite Z.add_0_r. do 2 f_equal.
      rewrite <- seq_shift, map_map. apply map_ext. intro i. f_equal. lia.
Qed.

Lemma yields_build (fuel : nat) (build_info : BuildInfo) :
  temperatureSensor (startHeat build_info) = sensor ->
  targetTemperature (startHeat build_info) = target ->
  let n := List.length (layers build_info) in
  yields (build mach tostring (S fuel) build_info) (eq tt)
    (mkSummary n n 0 []
       ((Z.of_nat n, 0) ::
        map (fun i => (Z.of_nat n, 1 + Z.of_nat i)) (seq 0 n))).
Proof.
  intros Hs Ht n. unfold build. cbv zeta. rewrite Hs, Ht. fold n.
  match goal with
  | |- yields _ _ ?sm =>
      change sm with
        (both (mkSummary 0 0 0 [] [(Z.of_nat n, 0)])
           (mkSummary n n 0 []
              (map (fun i => (Z.of_nat n, 1 + Z.of_nat i)) (seq 0 n))))
  end.
  eapply yields_bind; [apply yields_call_; reflexivity|intros ? _].
  do 6 (eapply yields_quiet_bind; [quiet_call|intros ? _]).
  eapply yields_quiet_bind; [apply yields_ensure_beam|intros ? _].
  do 4 (eapply yields_quiet_bind; [quiet_call|intros ? _]).
  eapply yields_quiet_bind;
    [apply yields_wait, yields_temperature_reached|intros ? <-].
  cbn [negb when].
  eapply yields_quiet_bind; [apply yields_ret|intros ? _].
  eapply yields_quiet_bind; [apply yields_clear|intros ? <-].
  cbn [negb when].
  eapply yields_quiet_bind; [apply yields_ret|intros ? _].
  eapply yields_quiet_bind; [quiet_call|intros ? _].
  rewrite <- (plus_nothing_r (mkSummary n n 0 [] _)).
  eapply yields_bind; [apply yields_process_layers|intros ? _].
  eapply yields_quiet_bind;
    [eapply yields_weaken; [|apply yields_clear]; intros; exact I|intros ? _].
  eapply yields_quiet_bind; [quiet_call|intros ? _].
  eapply yields_quiet_bind;
    [apply yields_wait_for_beam_power_low|intros ? _].
  do 4 (eapply yields_quiet_bind; [quiet_call|intros ? _]).
  apply yields_log.
Qed.

End SuccessProps.
Section TeardownProps.
Context {W : Type}.
Variable mach : Machine W.
Variable tostring : Q -> string.

Lemma ends_bind {A B} tail (m : M W A) (f : A -> M W B) :
  (forall a, trace_ends_with tail (f a)) -> trace_ends_with tail (bind m f).
Proof.
  intros Hf s b. unfold bind.
  destruct (res (m s)) as [a| |] eqn:E; cbn [res emitted after];
    try discriminate.
  intro H. destruct (Hf a _ _ H) as (pre & Et).
  exists (emitted (m s) ++ pre)%list. rewrite Et. now rewrite app_assoc.
Qed.

(** X9. A build that ends without an error ends with the beam switched off,
    then the power supply, then the activity "Build finished". *)
Theorem teardown_order (fuel : nat) (build_info : BuildInfo) (s : State W) :
  res (build mach tostring fuel build_info s) = Ok tt ->
  exists pre,
    emitted (build mach tostring fuel build_info s) =
      (pre ++ teardown_tail)%list.
Proof.
  revert s. 
  assert (H : trace_ends_with teardown_tail (build mach tostring fuel build_info)).
  { unfold build. cbv zeta.
    repeat match goal with
           | |- trace_ends_with _ (bind ?m _) =>
               lazymatch m with
               | log _ "Turning off the beam" => fail
               | _ => apply ends_bind; intros ?
               end
           end.
    intros ? ? _. exists [].
    unfold beam_off, power_off. exec. reflexivity. }
  intros s Hs. exact (H s tt Hs).
Qed.

End TeardownProps.

Lemma ideal_never_fails (sensor : string) (target reading : Q) :
  Qle_bool target reading = true -> never_fails (ideal reading) sensor target.
Proof.
  intro H. repeat split; intros; cbn; eauto.
Qed.

(** X8. On a host on which nothing fails, a build with a budget of one pass
    per loop ends without an error: it recoats and submits exactly once per
    layer, never sleeps, never calls the recovery, and publishes the
    progress (n, 0), (n, 1), ..., (n, n) for its n layers. *)
Theorem build_completes_when_nothing_fails
    (W : Type) (mach : Machine W) (tostring : Q -> string) (fuel : nat)
    (build_info : BuildInfo) (s : State W) :
  never_fails mach (temperatureSensor (startHeat build_info))
                   (targetTemperature (startHeat build_info)) ->
  let r := build mach tostring (S fuel) build_info s in
  let n := List.length (layers build_info) in
  res r = Ok tt /\
  summary (emitted r) =
    mkSummary n n 0 []
      ((Z.of_nat n, 0) ::
       map (fun i => (Z.of_nat n, 1 + Z.of_nat i)) (seq 0 n)).
Proof.
  intros Hnf r n.
  destruct (yields_build mach tostring _ _ Hnf fuel build_info
              eq_refl eq_refl s) as (a & s' & t & E & _ & S).
  subst r. rewrite E. cbn [res emitted]. destruct a. split; [reflexivity|].
  exact S.
Qed.

(** The build of one layer on the host on which nothing fails. *)
Lemma build_completes_when_nothing_fails_witness :
  never_fails (ideal 800) "Sensor1" 700 /\
  res (build (ideal 800) sim_tostring 1 one_layer_build (mkState tt None))
    = Ok tt.
Proof.
  assert (H : never_fails (ideal 800)
                (temperatureSensor (startHeat one_layer_build))
                (targetTemperature (startHeat one_layer_build)))
    by (apply ideal_never_fails; reflexivity).
  split; [exact H|].
  exact (proj1 (build_completes_when_nothing_fails unit (ideal 800)
                  sim_tostring 0 one_layer_build (mkState tt None) H)).
Defined.

Lemma teardown_order_witness :
  res (build (ideal 800) sim_tostring 1 one_layer_build (mkState tt None))
    = Ok tt /\
  exists pre,
    emitted (build (ideal 800) sim_tostring 1 one_layer_build
                   (mkState tt None)) = (pre ++ teardown_tail)%list.
Proof.
  assert (H : res (build (ideal 800) sim_tostring 1 one_layer_build
                     (mkState tt None)) = Ok tt) by reflexivity.
  split; [exact H|].
  exact (teardown_order (ideal 800) sim_tostring 1 one_layer_build
           (mkState tt None) H).
Defined.

Section StartHeatProps.
Context {W : Type}.
Variable mach : Machine W.
Variable tostring : Q -> string.
Variable sensor : string.
Variable target : Q.

Lemma sh_bind {A B} (m : M W A) (f : A -> M W B) :
  at_most is_layer_work 0 m ->
  (forall a, starts_heated sensor target (f a)) ->
  starts_heated sensor target (bind m f).
Proof.
  intros Hm Hf s H. specialize (Hm s). unfold bind in *.
  destruct (res (m s)) as [a|msg|] eqn:E; cbn [res emitted after] in *.
  - rewrite count_app in H.
    destruct (Hf a (final (m s))) as (pre & t & post & Et & Ht & Hc).
    { destruct H as [H|H]; [left; lia|right; exact H]. }
    exists (emitted (m s) ++ pre)%list, t, post.
    rewrite Et, <- app_assoc, count_app. repeat split; [exact Ht|lia].
  - destruct H as [H|[a H]]; [lia|discriminate].
  - destruct H as [H|[a H]]; [lia|discriminate].
Qed.

Lemma temperature_reached_no_work :
  at_most is_layer_work 0 (temperature_reached mach sensor target).
Proof.
  unfold temperature_reached, ensure_beam. unfold_api. am0_with fail.
Qed.

Lemma wait_loop_no_work fuel pred i d :
  at_most is_layer_work 0 pred ->
  at_most is_layer_work 0 (wait_loop mach fuel pred i d).
Proof.
  intro Hp. induction fuel as [|fuel IH]; cbn [wait_loop]; unfold_api;
    am0_with fail.
Qed.

Lemma wait_no_work fuel pred timeout settings :
  at_most is_layer_work 0 pred ->
  at_most is_layer_work 0 (wait mach fuel pred timeout settings).
Proof.
  intro Hp. unfold wait. unfold_api.
  am0_with ltac:(apply wait_loop_no_work).
Qed.

Lemma temperature_reached_true (s : State W) :
  res (temperature_reached mach sensor target s) = Ok true ->
  exists pre t,
    emitted (temperature_reached mach sensor target s) =
      (pre ++ [EvGetTemperature sensor (Some t)])%list /\
    Qle_bool target t = true.
Proof.
  unfold temperature_reached. intro H.
  destruct (res (ensure_beam mach s)) as [[]|msg|] eqn:E.
  - rewrite (bind_ok _ _ _ _ E) in *. unfold get_temperature in *.
    rewrite bind_call in *. cbv beta in *.
    rewrite !res_after in H. rewrite !emitted_after.
    cbn [ret res emitted] in *.
    destruct (fst (m_get_temperature mach sensor _)) as [t|];
      [|discriminate].
    exists (emitted (ensure_beam mach s)), t. rewrite app_nil_r.
    split; [reflexivity|]. now injection H.
  - rewrite (bind_raise _ _ _ _ E) in H. discriminate.
  - rewrite (bind_diverge _ _ _ E) in H. discriminate.
Qed.

Lemma wait_for_temperature_true fuel timeout settings (s : State W) :
  res (wait mach fuel (temperature_reached mach sensor target)
            timeout settings s) = Ok true ->
  exists pre t,
    emitted (wait mach fuel (temperature_reached mach sensor target)
                  timeout settings s) =
      (pre ++ [EvGetTemperature sensor (Some t)])%list /\
    Qle_bool target t = true.
Proof.
  unfold wait, os_time. rewrite bind_call. cbv beta.
  rewrite res_after, emitted_after. intro H.
  destruct (wait_loop_true mach _ _ _ _ _ H) as (pre & sk & Hk & Et & _).
  destruct (temperature_reached_true sk Hk) as (pre' & t & Et' & Ht).
  exists ([EvOsTime (fst (m_os_time mach (world s)))] ++ pre ++ pre')%list, t.
  rewrite Et, Et', <- !app_assoc. split; [reflexivity|exact Ht].
Qed.

Lemma sh_gate {A} fuel timeout settings (rest : M W A) :
  starts_heated sensor target
    (reached <- wait mach fuel (temperature_reached mach sensor target)
                     timeout settings ;;
     when (negb reached)
          (logfatal mach "Failed to reach target temperature") ;;
     cleared <- clear_exposure_queue mach ;;
     when (negb cleared) (logfatal mach "Failed to clear exposure queue") ;;
     rest).
Proof.
  intros s H.
  pose proof (wait_no_work fuel (temperature_reached mach sensor target)
                timeout settings temperature_reached_no_work s) as Hw.
  pose proof (wait_for_temperature_true fuel timeout settings s) as Ht.
  generalize dependent (wait mach fuel (temperature_reached mach sensor target)
                             timeout settings).
  intros m H Hw Ht.
  destruct (res (m s)) as [[|]|msg|] eqn:E.
  - rewrite (bind_ok _ _ _ _ E) in *. cbn [negb when] in *.
    rewrite bind_ret in *. unfold clear_exposure_queue in *.
    rewrite bind_call in *. cbv beta in *.
    destruct (Ht eq_refl) as (pre & t & Et & Hq).
    destruct (fst (m_clear_exposure_queue mach (world (final (m s)))));
      cbn [negb when] in *.
    + rewrite bind_ret in *. rewrite !emitted_after.
      exists pre, t. eexists. rewrite Et, <- app_assoc. cbn [app].
      split; [reflexivity|]. split; [exact Hq|].
      rewrite Et, count_app in Hw. lia.
    + rewrite bind_logfatal in H. cbv zeta in H.
      rewrite !res_after, !emitted_after in H. cbn [res emitted] in H.
      rewrite !count_app in H.
      destruct H as [H|[a H]]; [|discriminate].
      unfold count in H at 2 3. cbn in H. lia.
  - rewrite (bind_ok _ _ _ _ E) in H. cbn [negb when] in H.
    rewrite bind_logfatal in H. cbv zeta in H.
    rewrite !res_after, !emitted_after in H. cbn [res emitted] in H.
    rewrite !count_app in H.
    destruct H as [H|[a H]]; [|discriminate].
    unfold count in H at 2. cbn in H. lia.
  - rewrite (bind_raise _ _ _ _ E) in H. cbn [res emitted] in H.
    destruct H as [H|[a H]]; [lia|discriminate].
  - rewrite (bind_diverge _ _ _ E) in H. cbn [res emitted] in H.
    destruct H as [H|[a H]]; [lia|discriminate].
Qed.

Lemma build_starts_heated fuel build_info :
  temperatureSensor (startHeat build_info) = sensor ->
  targetTemperature (startHeat build_info) = target ->
  starts_heated sensor target (build mach tostring fuel build_info).
Proof.
  intros Hs Ht. unfold build. cbv zeta. rewrite Hs, Ht.
  repeat lazymatch goal with
    | |- starts_heated _ _ (bind (wait _ _ _ _ _) _) => fail
    | |- starts_heated _ _ (bind _ _) =>
        apply sh_bind;
        [solve [unfold ensure_beam; unfold_api; am0_with fail]|intro]
    end.
  apply sh_gate.
Qed.

End StartHeatProps.

(** X19. A build works on its layers only after the start heat: before the
    first recoat cycle and the first submission, and in every build that
    ends without an error, a reading of the temperature sensor of the
    build at or above its target temperature is directly followed by a
    queue clear that worked. *)
Theorem layers_start_after_target_temperature
    (W : Type) (mach : Machine W) (tostring : Q -> string) (fuel : nat)
    (build_info : BuildInfo) (s : State W) :
  let r := build mach tostring fuel build_info s in
  (0 < count is_recoat (emitted r))%nat \/
  (0 < exposures (emitted r))%nat \/
  res r = Ok tt ->
  exists pre t post,
    emitted r =
      (pre ++ EvGetTemperature (temperatureSensor (startHeat build_info))
                               (Some t) ::
              EvClearExposureQueue true :: post)%list /\
    (targetTemperature (startHeat build_info) <= t)%Q /\
    count is_recoat pre = 0%nat /\ exposures pre = 0%nat.
Proof.
  intros r H.
  assert (Hsplit : forall t, count is_layer_work t =
            (count is_recoat t + exposures t)%nat).
  { intro t. unfold count, exposures, is_layer_work.
    induction t as [|e t IH]; [reflexivity|].
    cbn [filter]. destruct e; cbn [is_recoat is_exposure orb List.length];
      lia. }
  destruct (build_starts_heated mach tostring _ _ fuel build_info
              eq_refl eq_refl s) as (pre & t & post & Et & Ht & Hc).
  { fold r. rewrite Hsplit.
    destruct H as [H|[H|H]]; [left; lia|left; lia|right; now exists tt]. }
  exists pre, t, post. fold r in Et. split; [exact Et|].
  split; [now apply Qle_bool_iff|]. rewrite Hsplit in Hc. lia.
Qed.

(** The build of one layer on the host on which nothing fails. *)
Lemma layers_start_after_target_temperature_witness :
  res (build (ideal 800) sim_tostring 1 one_layer_build (mkState tt None))
    = Ok tt /\
  exists pre t post,
    emitted (build (ideal 800) sim_tostring 1 one_layer_build
                   (mkState tt None)) =
      (pre ++ EvGetTemperature (temperatureSensor (startHeat one_layer_build))
                               (Some t) ::
              EvClearExposureQueue true :: post)%list /\
    (targetTemperature (startHeat one_layer_build) <= t)%Q /\
    count is_recoat pre = 0%nat /\ exposures pre = 0%nat.
Proof.
  assert (H : res (build (ideal 800) sim_tostring 1 one_layer_build
                     (mkState tt None)) = Ok tt) by reflexivity.
  split; [exact H|].
  exact (layers_start_after_target_temperature unit (ideal 800) sim_tostring
           1 one_layer_build (mkState tt None) (or_intror (or_intror H))).
Defined.

(** * Further properties of the Python code *)

Import KeyCase KeyDict ObpFiles HeatFile SimpleInput.

Lemma upper_not_underscore c :
  Ascii.eqb c "_"%char = false -> Ascii.eqb (upper c) "_"%char = false.
Proof.
  intro H. unfold upper. destruct (is_lower c) eqn:L; [|exact H].
  unfold is_lower in L. apply andb_prop in L. destruct L as [L1 L2].
  apply Nat.leb_le in L1, L2.
  apply Ascii.eqb_neq. intro E.
  apply (f_equal nat_of_ascii) in E.
  rewrite nat_ascii_embedding in E by lia. cbn in E. lia.
Qed.

Lemma lower_not_underscore c :
  Ascii.eqb c "_"%char = false -> Ascii.eqb (lower c) "_"%char = false.
Proof.
  intro H. unfold lower. destruct (is_upper c) eqn:L; [|exact H].
  unfold is_upper in L. apply andb_prop in L. destruct L as [L1 L2].
  apply Nat.leb_le in L1, L2.
  apply Ascii.eqb_neq. intro E.
  apply (f_equal nat_of_ascii) in E.
  rewrite nat_ascii_embedding in E by lia. cbn in E. lia.
Qed.

Lemma underscores_app a b :
  underscores (a ++ b) = (underscores a + underscores b)%nat.
Proof. induction a as [|c a IH]; cbn; [reflexivity|]. rewrite IH. lia. Qed.

Lemma lower_all_underscores s :
  underscores s = 0%nat -> underscores (lower_all s) = 0%nat.
Proof.
  induction s as [|c s IH]; cbn; [reflexivity|].
  destruct (Ascii.eqb c "_") eqn:E; [discriminate|].
  rewrite (lower_not_underscore c E). cbn. exact IH.
Qed.

Lemma capitalize_underscores s :
  underscores s = 0%nat -> underscores (capitalize s) = 0%nat.
Proof.
  destruct s as [|c s]; cbn; [reflexivity|].
  destruct (Ascii.eqb c "_") eqn:E; [discriminate|].
  rewrite (upper_not_underscore c E). cbn. apply lower_all_underscores.
Qed.

Lemma split_parts_clean s :
  Forall (fun p => underscores p = 0%nat) (split_underscore s).
Proof.
  induction s as [|c s IH]; cbn [split_underscore].
  - repeat constructor.
  - destruct (Ascii.eqb c "_") eqn:E.
    + constructor; [reflexivity|exact IH].
    + destruct (split_underscore s) as [|p ps].
      * repeat constructor. cbn. now rewrite E.
      * inversion IH; subst. constructor; [|assumption].
        cbn. now rewrite E.
Qed.

Lemma split_not_nil s : split_underscore s <> [].
Proof.
  destruct s as [|c s]; cbn; [discriminate|].
  destruct (Ascii.eqb c "_"); [discriminate|].
  destruct (split_underscore s); discriminate.
Qed.

Lemma join_clean ws :
  Forall (fun p => underscores p = 0%nat) ws -> underscores (join ws) = 0%nat.
Proof.
  induction 1 as [|w ws Hw _ IH]; cbn; [reflexivity|].
  now rewrite underscores_app, Hw, IH.
Qed.

Lemma snake_to_camel_clean s : underscores (snake_to_camel s) = 0%nat.
Proof.
  unfold snake_to_camel. pose proof (split_parts_clean s) as H.
  destruct (split_underscore s) as [|p ps]; [reflexivity|].
  inversion H; subst. rewrite underscores_app.
  rewrite join_clean.
  - lia.
  - apply Forall_map. eapply Forall_impl; [|eassumption].
    apply capitalize_underscores.
Qed.

Lemma split_clean_string s :
  underscores s = 0%nat -> split_underscore s = [s].
Proof.
  induction s as [|c s IH]; cbn; [reflexivity|].
  destruct (Ascii.eqb c "_"); [discriminate|]. cbn. intro H.
  now rewrite (IH H).
Qed.

Lemma append_empty_r s : s ++ "" = s.
Proof. induction s; cbn; congruence. Qed.

Lemma snake_to_camel_fixed s :
  underscores s = 0%nat -> snake_to_camel s = s.
Proof.
  intro H. unfold snake_to_camel. rewrite (split_clean_string s H).
  cbn [map join]. apply append_empty_r.
Qed.

Lemma length_lower_all s : String.length (lower_all s) = String.length s.
Proof. induction s; cbn; congruence. Qed.

Lemma length_capitalize s : String.length (capitalize s) = String.length s.
Proof. destruct s; cbn; [reflexivity|]. now rewrite length_lower_all. Qed.

Lemma length_append a b :
  String.length (a ++ b) = (String.length a + String.length b)%nat.
Proof. induction a; cbn; congruence. Qed.

Lemma length_join_capitalize ws :
  String.length (join (map capitalize ws)) = String.length (join ws).
Proof.
  induction ws as [|w ws IH]; cbn; [reflexivity|].
  now rewrite !length_append, length_capitalize, IH.
Qed.

Lemma split_lengths s :
  (String.length (join (split_underscore s)) + underscores s)%nat
    = String.length s.
Proof.
  induction s as [|c s IH]; cbn [split_underscore underscores String.length];
    [reflexivity|].
  destruct (Ascii.eqb c "_").
  - cbn [join append]. lia.
  - destruct (split_underscore s) as [|p ps]; cbn in *; lia.
Qed.

Lemma snake_to_camel_length s :
  (String.length (snake_to_camel s) + underscores s)%nat = String.length s.
Proof.
  pose proof (split_lengths s) as H. pose proof (split_not_nil s) as Hn.
  unfold snake_to_camel.
  destruct (split_underscore s) as [|p ps]; [contradiction|].
  cbn [join] in H. rewrite !length_append in *.
  rewrite length_join_capitalize. exact H.
Qed.

(** X10. The result of [snake_to_camel] has no underscore; a key without
    underscores is returned as it is; converting twice is converting
    once. *)
Theorem snake_to_camel_is_idempotent (s : string) :
  underscores (snake_to_camel s) = 0%nat /\
  (underscores s = 0%nat -> snake_to_camel s = s) /\
  snake_to_camel (snake_to_camel s) = snake_to_camel s.
Proof.
  split; [apply snake_to_camel_clean|]. split; [apply snake_to_camel_fixed|].
  apply snake_to_camel_fixed, snake_to_camel_clean.
Qed.

Lemma split_first_part (p rest : string) :
  underscores p = 0%nat ->
  split_underscore (p ++ "_" ++ rest) = p :: split_underscore rest.
Proof.
  induction p as [|ch p IH]; cbn [append split_underscore underscores].
  - intros _. reflexivity.
  - destruct (Ascii.eqb ch "_") eqn:E; [discriminate|]. cbn [Nat.add].
    intro H. cbn [append] in IH. rewrite (IH H). reflexivity.
Qed.

(** X11. [snake_to_camel] removes the underscores and nothing else: the
    result is shorter by the number of underscores.  Of a key of two words
    the first word stays as it is, and the second gets its first letter in
    upper case and its other letters in lower case. *)
Theorem snake_to_camel_words :
  (forall s,
     (String.length (snake_to_camel s) + underscores s)%nat
       = String.length s) /\
  (forall p q,
     underscores p = 0%nat -> underscores q = 0%nat ->
     snake_to_camel (p ++ "_" ++ q) = p ++ capitalize q) /\
  snake_to_camel "recoater_DWELL_time" = "recoaterDwellTime".
Proof.
  split; [exact snake_to_camel_length|]. split; [|reflexivity].
  intros p q Hp Hq. unfold snake_to_camel.
  rewrite (split_first_part p q Hp), (split_clean_string q Hq).
  cbn [map join]. now rewrite append_empty_r.
Qed.

Lemma camel_value_dict d : camel_value (PDict d) = PDict (camel_items d []).
Proof. reflexivity. Qed.

Lemma clean_dict d : clean (PDict d) = clean_items d.
Proof.
  cbn [clean]. induction d as [|[k x] d IH]; cbn [clean_items]; [reflexivity|].
  now rewrite IH.
Qed.

Lemma dict_set_clean d k v :
  clean_items d -> underscores k = 0%nat -> clean v ->
  clean_items (dict_set d k v).
Proof.
  induction d as [|[k' v'] d IH]; cbn [dict_set clean_items]; intros Hd Hk Hv.
  - auto.
  - destruct Hd as (Hk' & Hv' & Hd).
    destruct (String.eqb k' k); cbn [clean_items]; auto.
Qed.

Lemma camel_items_clean d :
  Forall (fun kv => clean (camel_value (snd kv))) d ->
  forall acc, clean_items acc -> clean_items (camel_items d acc).
Proof.
  induction 1 as [|[k x] d Hx _ IH]; intros acc Hacc; cbn [camel_items];
    [exact Hacc|].
  apply IH. apply dict_set_clean; auto using snake_to_camel_clean.
Qed.

Lemma camel_value_clean v : clean (camel_value v).
Proof.
  induction v using pyvalue_dict_ind; try exact I.
  rewrite camel_value_dict, clean_dict.
  apply camel_items_clean; [assumption|exact I].
Qed.

Lemma dict_get_set d k v k' :
  dict_get (dict_set d k v) k' =
    if String.eqb k k' then Some v else dict_get d k'.
Proof.
  induction d as [|[k0 v0] d IH]; cbn [dict_set dict_get].
  - reflexivity.
  - destruct (String.eqb k0 k) eqn:E0.
    + apply String.eqb_eq in E0. subst k0. cbn [dict_get].
      destruct (String.eqb k k'); reflexivity.
    + cbn [dict_get]. rewrite IH.
      destruct (String.eqb k0 k') eqn:E1; [|reflexivity].
      apply String.eqb_eq in E1. subst k0.
      rewrite String.eqb_sym, E0. reflexivity.
Qed.

Lemma camel_items_get d k' :
  forall acc,
    dict_get (camel_items d acc) k' = last_with d k' (dict_get acc k').
Proof.
  induction d as [|[k x] d IH]; intro acc; cbn [camel_items last_with];
    [reflexivity|].
  now rewrite IH, dict_get_set.
Qed.

Lemma dict_set_keys d k v :
  NoDup (map fst d) -> NoDup (map fst (dict_set d k v)) /\
  (forall x, In x (map fst (dict_set d k v)) <-> x = k \/ In x (map fst d)).
Proof.
  induction d as [|[k0 v0] d IH]; cbn [dict_set map fst]; intro Hd.
  - split; [repeat constructor; auto|]. cbn. intuition.
  - inversion Hd as [|? ? Hn Hd']; subst.
    destruct (String.eqb k0 k) eqn:E.
    + apply String.eqb_eq in E. subst k0. cbn [map fst].
      split; [exact Hd|]. cbn. intuition.
    + destruct (IH Hd') as [IH1 IH2]. cbn [map fst]. split.
      * constructor; [|exact IH1]. rewrite IH2. intros [->|H]; [|auto].
        now rewrite String.eqb_refl in E.
      * intro x. cbn [In]. rewrite IH2. intuition.
Qed.

Lemma camel_items_keys d :
  forall acc, NoDup (map fst acc) ->
    NoDup (map fst (camel_items d acc)) /\
    (List.length (camel_items d acc) <= List.length acc + List.length d)%nat.
Proof.
  induction d as [|[k x] d IH]; intros acc Hacc; cbn [camel_items List.length].
  - split; [exact Hacc|lia].
  - destruct (dict_set_keys acc (snake_to_camel k) (camel_value x) Hacc)
      as [Hn _].
    destruct (IH _ Hn) as [H1 H2]. split; [exact H1|].
    assert (List.length (dict_set acc (snake_to_camel k) (camel_value x))
            <= S (List.length acc))%nat.
    { clear. induction acc as [|[k0 v0] acc IHa]; cbn [dict_set List.length];
        [lia|].
      destruct (String.eqb k0 (snake_to_camel k)); cbn [List.length]; lia. }
    lia.
Qed.

(** X12. [convert_keys_to_camel] raises for an input that is no dict.  For
    a dict, every key of the result has no underscore, in the dict itself
    and in the dicts that are values of a dict, at every depth; a list is
    kept as it is, with the dicts in it. *)
Theorem convert_keys_to_camel_cleans_the_keys (obj : pyvalue) :
  match convert_keys_to_camel obj with
  | inl new_dict => exists d, obj = PDict d /\ clean (PDict new_dict)
  | inr msg => msg = "Input must be a dictionary." /\ forall d, obj <> PDict d
  end /\
  (forall k l,
     convert_keys_to_camel (PDict [(k, PList l)]) =
       inl [(snake_to_camel k, PList l)]).
Proof.
  split; [|reflexivity].
  destruct obj; cbn [convert_keys_to_camel];
    try (split; [reflexivity|intros ? ?; discriminate]).
  exists d. split; [reflexivity|].
  rewrite <- camel_value_dict. apply camel_value_clean.
Qed.

(** X13. The result of [convert_keys_to_camel] is a dict again: no key
    occurs twice.  Under a new key it holds the converted value of the last
    item of the input whose key converts to it, so items whose keys
    convert to the same key leave one item, and the result is never longer
    than the input. *)
Theorem convert_keys_to_camel_last_item_wins
    (d : list (string * pyvalue)) :
  exists new_dict,
    convert_keys_to_camel (PDict d) = inl new_dict /\
    NoDup (map fst new_dict) /\
    (List.length new_dict <= List.length d)%nat /\
    (forall k, dict_get new_dict k = last_with d k None) /\
    convert_keys_to_camel (PDict [("a_b", PInt 1); ("a_B", PInt 2)]) =
      inl [("aB", PInt 2)].
Proof.
  exists (camel_items d []). split; [reflexivity|].
  destruct (camel_items_keys d [] (NoDup_nil _)) as [H1 H2].
  split; [exact H1|]. split; [exact H2|]. split; [|reflexivity].
  intro k. apply camel_items_get.
Qed.

Section CollectProps.
Variable path_join : string -> string -> string.
Variable basename : string -> string.

Local Abbreviation visit := (visit path_join basename).
Local Abbreviation visit_files := (visit_files path_join basename).
Local Abbreviation visit_dirs := (visit_dirs path_join basename).
Local Abbreviation state_of := (state_of path_join basename).
Local Abbreviation names := (names basename).
Local Abbreviation outcome := (outcome path_join basename).

Lemma mem_In x l : mem x l = true <-> In x l.
Proof.
  unfold mem. rewrite existsb_exists. split.
  - intros (y & Hy & E). apply String.eqb_eq in E. now subst.
  - intro H. exists x. split; [exact H|apply String.eqb_refl].
Qed.

Lemma NoDup_snoc {A} (l : list A) (x : A) :
  NoDup l -> ~ In x l -> NoDup (l ++ [x]).
Proof.
  induction 1 as [|y l Hy Hl IH]; intro Hx; cbn [app].
  - repeat constructor. auto.
  - constructor.
    + rewrite in_app_iff. cbn [In]. intros [H|[H|[]]]; [auto|].
      apply Hx. now left.
    + apply IH. intro H. apply Hx. now right.
Qed.

Lemma names_app a b : names (a ++ b) = (names a ++ names b)%list.
Proof. apply map_app. Qed.

Lemma visit_files_spec root files :
  forall sel st,
    state_of sel st -> NoDup (names sel) ->
    outcome (sel ++ map (fun f => (root, f)) (filter is_obp files))
            (visit_files root files st).
Proof.
  induction files as [|f rest IH]; intros sel st Hst Hnd;
    cbn [ObpFiles.visit_files filter map].
  - rewrite app_nil_r. split; assumption.
  - unfold ObpFiles.visit at 1. destruct (is_obp f) eqn:Ef; cbv zeta.
    + destruct (mem (basename f) (snd st)) eqn:Em.
      * apply mem_In in Em. apply (proj2 Hst) in Em. fold (names sel) in Em.
        cbn [map]. split.
        -- rewrite names_app. cbn [ObpFiles.names map snd]. intro H.
           apply NoDup_remove_2 in H. apply H.
           apply in_or_app. now left.
        -- exists (basename f). split; [reflexivity|].
           rewrite names_app. apply in_or_app. now left.
      * specialize (IH (sel ++ [(root, f)])%list
                      ((fst st ++ [path_join root f])%list,
                       basename f :: snd st)).
        rewrite <- app_assoc in IH. cbn [app] in IH.
        cbn [map]. apply IH.
        -- split; cbn [fst snd].
           ++ rewrite map_app, (proj1 Hst). reflexivity.
           ++ intro b. rewrite map_app, in_app_iff. cbn [map In snd].
              rewrite (proj2 Hst). intuition.
        -- rewrite names_app. cbn [ObpFiles.names map snd]. apply NoDup_snoc; [exact Hnd|].
           intro H. apply (proj2 Hst) in H. apply mem_In in H. congruence.
    + now apply IH.
Qed.

Lemma outcome_extend sel more e :
  outcome sel (inr e) -> outcome (sel ++ more) (inr e).
Proof.
  intros [Hn (b & -> & Hb)]. split.
  - rewrite names_app. intro H. apply Hn.
    clear -H. induction (names sel) as [|x l IH]; [constructor|].
    cbn [app] in H. inversion H; subst. constructor.
    + intro Hx. apply H2. apply in_or_app. now left.
    + now apply IH.
  - exists b. split; [reflexivity|]. rewrite names_app. apply in_or_app.
    now left.
Qed.

Lemma visit_dirs_spec walk :
  forall sel st,
    state_of sel st -> NoDup (names sel) ->
    outcome (sel ++ selected walk) (visit_dirs walk st).
Proof.
  induction walk as [|[root files] rest IH]; intros sel st Hst Hnd;
    cbn [ObpFiles.visit_dirs selected].
  - rewrite app_nil_r. split; assumption.
  - pose proof (visit_files_spec root files sel st Hst Hnd) as H.
    rewrite app_assoc.
    destruct (visit_files root files st) as [st'|e].
    + destruct H as [Hst' Hnd']. now apply IH.
    + now apply outcome_extend.
Qed.


Lemma collect_obp_files_spec
    (walk : list (string * list string)) :
  match collect_obp_files path_join basename walk with
  | inl paths =>
      paths = map (fun rf => path_join (fst rf) (snd rf)) (selected walk) /\
      NoDup (names (selected walk))
  | inr e =>
      ~ NoDup (names (selected walk)) /\
      exists b, e = "Duplicate file name found: " ++ b /\
                In b (names (selected walk))
  end.
Proof.
  unfold collect_obp_files.
  pose proof (visit_dirs_spec walk [] ([], [])) as H. cbn [app] in H.
  assert (H0 : state_of [] ([], [])) by (split; [reflexivity|intro; reflexivity]).
  specialize (H H0 (NoDup_nil _)).
  destruct (visit_dirs walk ([], [])) as [st|e]; [|exact H].
  destruct H as [[Hp _] Hn]. split; assumption.
Qed.

(** X14. The collection of the OBP files succeeds exactly when the base
    names of the files ending in [.obp] or [.gz] are pairwise distinct; it
    then holds the joined path of each such file, in the order of the
    walk.  Otherwise it raises, naming a base name among these files. *)
Theorem collect_succeeds_iff_names_distinct
    (walk : list (string * list string)) :
  match collect_obp_files path_join basename walk with
  | inl paths =>
      paths = map (fun rf => path_join (fst rf) (snd rf)) (selected walk) /\
      NoDup (names (selected walk))
  | inr e =>
      ~ NoDup (names (selected walk)) /\
      exists b, e = "Duplicate file name found: " ++ b /\
                In b (names (selected walk))
  end.
Proof. exact (collect_obp_files_spec walk). Qed.

Lemma append_injective (p a b : string) : p ++ a = p ++ b -> a = b.
Proof. induction p as [|c p IH]; cbn; [auto|]. intro H. injection H. auto. Qed.

Lemma NoDup_map_injective {A B} (f : A -> B) (l : list A) :
  (forall x y, f x = f y -> x = y) -> NoDup l -> NoDup (map f l).
Proof.
  intros Hf. induction 1 as [|x l Hx Hl IH]; cbn [map]; constructor; auto.
  rewrite in_map_iff. intros (y & E & Hy). apply Hf in E. now subst.
Qed.

(** X15. When the collection succeeds, no two collected files get the same
    entry name [obp/<basename>] in the archive. *)
Theorem archive_entries_are_distinct
    (walk : list (string * list string)) (paths : list string) :
  (forall root f, basename (path_join root f) = basename f) ->
  collect_obp_files path_join basename walk = inl paths ->
  NoDup (map (entry_name basename) paths).
Proof.
  intros Hb Hc.
  pose proof (collect_obp_files_spec walk) as H.
  rewrite Hc in H. destruct H as [-> Hn].
  rewrite map_map. unfold entry_name.
  replace (map (fun rf => "obp/" ++ basename (path_join (fst rf) (snd rf)))
               (selected walk))
    with (map (fun b => "obp/" ++ b) (names (selected walk))).
  - apply NoDup_map_injective; [|exact Hn].
    intros x y. apply append_injective.
  - unfold names. rewrite map_map. apply map_ext. intro rf. now rewrite Hb.
Qed.

End CollectProps.

Lemma last_component_join acc root f :
  Converter.last_component acc (sample_join root f) =
  Converter.last_component "" f.
Proof.
  unfold sample_join. revert acc.
  induction root as [|c root IH]; intro acc; cbn.
  - reflexivity.
  - destruct (Ascii.eqb c "/"); apply IH.
Qed.

(** Three files in two directories. *)
Lemma archive_entries_are_distinct_witness :
  (forall root f,
     Converter.sample_path_name (sample_join root f) =
     Converter.sample_path_name f) /\
  collect_obp_files sample_join Converter.sample_path_name sample_walk =
    inl ["build/start.obp"; "build/layers/a.obp"; "build/layers/b.obp.gz"] /\
  NoDup (map (entry_name Converter.sample_path_name)
             ["build/start.obp"; "build/layers/a.obp";
              "build/layers/b.obp.gz"]).
Proof.
  assert (H1 : forall root f,
             Converter.sample_path_name (sample_join root f) =
             Converter.sample_path_name f)
    by (intros; apply last_component_join).
  assert (H2 : collect_obp_files sample_join Converter.sample_path_name
                 sample_walk =
               inl ["build/start.obp"; "build/layers/a.obp";
                    "build/layers/b.obp.gz"]) by reflexivity.
  split; [exact H1|]. split; [exact H2|].
  exact (archive_entries_are_distinct sample_join Converter.sample_path_name
           sample_walk _ H1 H2).
Defined.

Section CompositionProps.
Context {W : Type}.
Variable mach : Machine W.
Variable path_name : string -> string.
Variable boss_preheat boss_postheat : BossHeat.

Lemma fold_left_snoc {A B} (g : A -> B) (l : list A) :
  forall acc,
    fold_left (fun ml f => (ml ++ [g f])%list) l acc = (acc ++ map g l)%list.
Proof.
  induction l as [|x l IH]; intro acc; cbn [fold_left map].
  - now rewrite app_nil_r.
  - rewrite IH, <- app_assoc. reflexivity.
Qed.

Lemma make_layer_melt (boss_layer : BossLayer) :
  melt (make_layer path_name boss_preheat boss_postheat boss_layer) =
    map (fun f => mkPattern ("obp/" ++ path_name f) 1) (boss_files boss_layer).
Proof.
  unfold make_layer. cbn [melt]. fold (boss_files boss_layer).
  apply (fold_left_snoc (fun f => mkPattern ("obp/" ++ path_name f) 1)).
Qed.

(** X16. A layer written by [convert], run by the build processor: every
    pass submits the pre-heat file with Lua's sum of PreHeatRepetitions and
    its repetitions, no spatterSafe pattern, each file of the entry once
    with one repetition, and the post-heat file with Lua's sum of its
    repetitions and PostHeatRepetitions.  The two sums wrap around at 64
    bits; when PreHeatRepetitions plus the pre-heat repetitions and the
    post-heat repetitions plus PostHeatRepetitions are within the range of
    a Lua integer, these two numbers are submitted. *)
Theorem converted_layer_submission
    (boss_layer : BossLayer) (index : Z) (layerDone : bool) (retryCount : Z)
    (s : State W) :
  let a := attempt mach index
             (make_layer path_name boss_preheat boss_postheat boss_layer)
             layerDone retryCount s in
  submissions (emitted a) =
    [([mkPattern ("obp/" ++ path_name (bh_file boss_preheat))
                 (lua_add (pre_heat_read mach s)
                          (bh_repetitions boss_preheat))],
      [],
      map (fun f => mkPattern ("obp/" ++ path_name f) 1)
          (boss_files boss_layer),
      [mkPattern ("obp/" ++ path_name (bh_file boss_postheat))
                 (lua_add (bh_repetitions boss_postheat)
                          (post_heat_read mach s))])] /\
  (in_int64 (pre_heat_read mach s + bh_repetitions boss_preheat) ->
   in_int64 (bh_repetitions boss_postheat + post_heat_read mach s) ->
   submissions (emitted a) =
     [([mkPattern ("obp/" ++ path_name (bh_file boss_preheat))
                  (pre_heat_read mach s + bh_repetitions boss_preheat)],
       [],
       map (fun f => mkPattern ("obp/" ++ path_name f) 1)
           (boss_files boss_layer),
       [mkPattern ("obp/" ++ path_name (bh_file boss_postheat))
                  (bh_repetitions boss_postheat + post_heat_read mach s)])]).
Proof.
  intro a.
  assert (E : submissions (emitted a) =
    [([mkPattern ("obp/" ++ path_name (bh_file boss_preheat))
                 (lua_add (pre_heat_read mach s)
                          (bh_repetitions boss_preheat))],
      [],
      map (fun f => mkPattern ("obp/" ++ path_name f) 1)
          (boss_files boss_layer),
      [mkPattern ("obp/" ++ path_name (bh_file boss_postheat))
                 (lua_add (bh_repetitions boss_postheat)
                          (post_heat_read mach s))])]).
  { subst a. rewrite attempt_submissions.
    unfold build_meltPatterns, build_jumpSafePatterns,
      build_heatBalancePatterns, build_spatterSafePatterns.
    rewrite make_layer_melt.
    cbn [make_layer jumpSafe spatterSafe heatBalance].
    rewrite !insert_all_map, copy_patterns. reflexivity. }
  split; [exact E|].
  intros Hpre Hpost. rewrite E.
  now rewrite (lua_add_in_range _ _ Hpre), (lua_add_in_range _ _ Hpost).
Qed.

End CompositionProps.

Section HeatProps.
Variable F : Type.
Variable mul add : F -> F -> F.
Variable of_int : Z -> F.
Variable a b c : F.

Local Abbreviation heat_ring := (heat_ring F mul add of_int a b c).
Local Abbreviation heat_loop := (heat_loop F mul add of_int a b c).

Lemma heat_loop_rings (m : nat) :
  forall (fuel : nat) (cur : list (Curve F)),
    (m <= 63)%nat -> (m <= fuel)%nat ->
    heat_loop fuel (700 * Z.of_nat (64 - m)) cur (Z.of_nat (65 - m)) =
      Some (cur ++ List.concat (map heat_ring (seq (65 - m) m)))%list.
Proof.
  induction m as [|m IH]; intros fuel cur Hm Hfuel.
  - cbn [seq map List.concat]. rewrite app_nil_r.
    destruct fuel; cbn [HeatFile.heat_loop]; reflexivity.
  - destruct fuel as [|fuel]; [lia|]. cbn [HeatFile.heat_loop].
    destruct (Z.leb_spec (700 * Z.of_nat (64 - S m)) 44100); [|lia].
    cbv zeta.
    replace (700 * Z.of_nat (64 - S m) + 700) with (700 * Z.of_nat (64 - m))
      by lia.
    replace (Z.of_nat (65 - S m) + 1) with (Z.of_nat (65 - m)) by lia.
    rewrite IH by lia.
    replace (65 - S m)%nat with (64 - m)%nat by lia.
    replace (65 - m)%nat with (S (64 - m)) by lia.
    cbn [seq map List.concat]. rewrite <- app_assoc.
    unfold HeatFile.heat_ring at 2. reflexivity.
Qed.

Lemma heat_loop_short (m : nat) :
  forall (fuel : nat) (i : Z) (cur : list (Curve F)) (counter : Z),
    (fuel < m)%nat -> i + 700 * Z.of_nat (m - 1) <= 44100 ->
    heat_loop fuel i cur counter = None.
Proof.
  induction m as [|m IH]; intros fuel i cur counter Hf Hi; [lia|].
  destruct fuel as [|fuel]; cbn [HeatFile.heat_loop].
  - destruct (Z.leb_spec i 44100); [reflexivity|lia].
  - destruct (Z.leb_spec i 44100); [|lia]. cbv zeta.
    apply IH; lia.
Qed.

(** X17. [createHeatFile] ends after 63 passes of its loop and writes 64
    circles of four curves each: circle k has the radius 700 k (the last
    one 44800, above the bound 44100 of the loop) and the speed
    10000000 - 77778 k; the beam power asked for is used for the first
    circle only, the others have the default 3000. *)
Theorem heat_file_rings (fuel : nat) (beampower : F) :
  ((63 <= fuel)%nat ->
   createHeatFile F mul add of_int a b c fuel beampower =
     Some (bezier_circle F mul add of_int a b c beampower
             (default_spot F of_int) 9922222 (default_midpoint F of_int) 700
           ++ List.concat (map heat_ring (seq 2 63)))%list) /\
  ((fuel < 63)%nat ->
   createHeatFile F mul add of_int a b c fuel beampower = None) /\
  (forall curves,
     createHeatFile F mul add of_int a b c fuel beampower = Some curves ->
     List.length curves = 256%nat).
Proof.
  assert (H63 : (63 <= fuel)%nat ->
    createHeatFile F mul add of_int a b c fuel beampower =
     Some (bezier_circle F mul add of_int a b c beampower
             (default_spot F of_int) 9922222 (default_midpoint F of_int) 700
           ++ List.concat (map heat_ring (seq 2 63)))%list).
  { intro H. unfold createHeatFile. cbv zeta.
    exact (heat_loop_rings 63 fuel _ ltac:(lia) H). }
  assert (Hshort : (fuel < 63)%nat ->
    createHeatFile F mul add of_int a b c fuel beampower = None).
  { intro H. unfold createHeatFile. cbv zeta.
    apply (heat_loop_short 63); [exact H|lia]. }
  split; [exact H63|]. split; [exact Hshort|].
  intros curves E. destruct (Nat.lt_ge_cases fuel 63) as [H|H].
  - rewrite (Hshort H) in E. discriminate.
  - rewrite (H63 H) in E. injection E as <-. reflexivity.
Qed.

End HeatProps.

Section BroadcastProps.
Context {A : Type}.

Lemma nth_error_concat_repeat1 (x : A) (n i : nat) :
  (i < n)%nat -> nth_error (List.concat (repeat [x] n)) i = Some x.
Proof.
  revert i. induction n as [|n IH]; intros i Hi; [lia|].
  cbn [repeat List.concat app]. destruct i as [|i]; [reflexivity|].
  cbn [nth_error]. apply IH. lia.
Qed.

Lemma length_concat_repeat1 (x : A) (n : nat) :
  List.length (List.concat (repeat [x] n)) = n.
Proof.
  induction n as [|n IH]; [reflexivity|].
  cbn [repeat List.concat app List.length]. now rewrite IH.
Qed.

(** X18. After the update of [prepare_build] an attribute list of one
    element has one element per mesh, all equal; any other list is left
    as it is.  So the index of every mesh is within the list exactly when
    the list had one element or at least as many as there are meshes. *)
Theorem broadcast_index_in_range (wanted_len : nat) (attr : list A) :
  (List.length attr = 1%nat ->
   List.length (broadcast wanted_len attr) = wanted_len /\
   forall i, (i < wanted_len)%nat ->
     nth_error (broadcast wanted_len attr) i = nth_error attr 0) /\
  (List.length attr <> 1%nat -> broadcast wanted_len attr = attr) /\
  ((forall i, (i < wanted_len)%nat ->
      nth_error (broadcast wanted_len attr) i <> None) <->
   (List.length attr = 1%nat \/ (wanted_len <= List.length attr)%nat)).
Proof.
  assert (H1 : List.length attr = 1%nat ->
    List.length (broadcast wanted_len attr) = wanted_len /\
    forall i, (i < wanted_len)%nat ->
      nth_error (broadcast wanted_len attr) i = nth_error attr 0).
  { intro H. destruct attr as [|x [|y l]]; try discriminate H.
    unfold broadcast. cbn [List.length Nat.eqb andb].
    destruct (Nat.eqb_spec wanted_len 1) as [->|Hw]; cbn [negb].
    - split; [reflexivity|]. intros i Hi. now replace i with 0%nat by lia.
    - split; [apply length_concat_repeat1|].
      intros i Hi. now apply nth_error_concat_repeat1. }
  assert (H2 : List.length attr <> 1%nat -> broadcast wanted_len attr = attr).
  { intro H. unfold broadcast.
    destruct (Nat.eqb_spec (List.length attr) 1); [contradiction|reflexivity]. }
  split; [exact H1|]. split; [exact H2|].
  destruct (Nat.eq_dec (List.length attr) 1) as [E|E].
  - split; [auto|]. intros _ i Hi. destruct (H1 E) as [_ Hn].
    rewrite (Hn i Hi). destruct attr; [discriminate|]. discriminate.
  - rewrite (H2 E). split.
    + intro H. right. destruct (Nat.le_gt_cases wanted_len (List.length attr))
        as [Hle|Hgt]; [exact Hle|].
      exfalso. apply (H (List.length attr) Hgt).
      apply nth_error_None. lia.
    + intros [H|H] i Hi; [contradiction|].
      apply nth_error_Some. lia.
Qed.

End BroadcastProps.
